(** * Pure EdDSA over edwards25519 and edwards448 (src/ecdsa/eddsa.py)

    A shallow embedding of the EdDSA protocol layer of python-ecdsa: the
    curve parameter tables, key pruning, [PrivateKey] and [PublicKey].

    The twisted-Edwards group arithmetic ([ellipticcurve]) and the hash
    primitives (SHA-512, SHAKE-256) are external collaborators of the
    module; they enter as the type classes [CurveEngine] and
    [HashPrimitives].  Every call made to them is recorded in a trace, so
    that statements about *when* and *how often* the engine is used can be
    read off the embedding. *)

From Stdlib Require Import ZArith Lia List String DecimalString.
From Stdlib.Strings Require Import Byte.
From stdpp Require Import base list.
Import ListNotations.
Local Open Scope Z_scope.

(** ** Bytes and Python sequence operations *)

Abbreviation bytes := (list byte).

Definition byte_val (b : byte) : Z := Z.of_N (Byte.to_N b).

Definition byte_of (z : Z) : byte :=
  match Byte.of_N (Z.to_N z) with
  | Some b => b
  | None => x00
  end.

#[global] Instance byte_eq_dec : EqDecision byte := Byte.byte_eq_dec.

(** [len(x)] *)
Definition len {A} (l : list A) : Z := Z.of_nat (length l).

(** [x[:n]] and [x[n:]], with Python's reading of a negative bound. *)
Definition slice_to {A} (l : list A) (n : Z) : list A :=
  if 0 <=? n then take (Z.to_nat n) l else take (Z.to_nat (len l + n)) l.

Definition slice_from {A} (l : list A) (n : Z) : list A :=
  if 0 <=? n then drop (Z.to_nat n) l else drop (Z.to_nat (len l + n)) l.

(** Position denoted by a Python index into a sequence of [n] items. *)
Definition py_index (n : nat) (i : Z) : option nat :=
  if 0 <=? i then (if i <? Z.of_nat n then Some (Z.to_nat i) else None)
  else (if 0 <=? Z.of_nat n + i then Some (Z.to_nat (Z.of_nat n + i)) else None).

(** ** Exceptions and the two monads of the embedding *)

(** The module raises [ValueError] with a message at each of its own
    checks; a bytearray access out of range raises [IndexError], [%] by
    zero [ZeroDivisionError]; a failed point decoding is raised by the
    engine and surfaces unchanged. *)
Inductive exn :=
| ValueError (msg : string)
| IndexError (msg : string)
| ZeroDivisionError
| InvalidEncodedPoint.

Inductive result (A : Type) :=
| Return (v : A)
| Raise (e : exn).
Arguments Return {A} v.
Arguments Raise {A} e.

Definition rbind {A B} (m : result A) (k : A -> result B) : result B :=
  match m with
  | Return v => k v
  | Raise e => Raise e
  end.

(** State that survives an exception, as an object's attributes do. *)
Definition M (S A : Type) : Type := S -> result A * S.

Definition ret {S A} (v : A) : M S A := fun st => (Return v, st).
Definition raise {S A} (e : exn) : M S A := fun st => (Raise e, st).
Definition bind {S A B} (m : M S A) (k : A -> M S B) : M S B :=
  fun st =>
    match m st with
    | (Return v, st') => k v st'
    | (Raise e, st') => (Raise e, st')
    end.
Definition lift_result {S A} (r : result A) : M S A := fun st => (r, st).

Declare Scope monad_scope.
Delimit Scope monad_scope with monad.
Notation "x <- m ;; k" := (bind m (fun x => k))
  (at level 100, m at next level, right associativity) : monad_scope.
Notation "'try' x := m 'in' k" := (rbind m (fun x => k))
  (at level 100, x name, m at next level, right associativity) : monad_scope.

(** Calls to the external collaborators, in the order they are made. *)
Inductive event :=
| EvDecode      (* PointEdwards.from_bytes *)
| EvEncode      (* point.to_bytes() *)
| EvScalarMul   (* point * integer *)
| EvPointAdd    (* point + point *)
| EvPointEqual  (* point == point, point != point *)
| EvHash.       (* curve.hash_func(data) *)

Definition World := list event.

Definition emit {A} (e : event) (v : A) : M World A :=
  fun w => (Return v, w ++ [e]).

(** A method body runs on [(self, world)]. *)
Definition self {T} : M (T * World) T := fun st => (Return (fst st), st).
Definition set_self {T} (o : T) : M (T * World) unit :=
  fun st => (Return tt, (o, snd st)).
Definition extern {T A} (m : M World A) : M (T * World) A :=
  fun st => let (r, w) := m (snd st) in (r, (fst st, w)).

(** [obj.method(args)] from code that runs on the world alone. *)
Definition call {T A} (o : T) (m : M (T * World) A) : M World (A * T) :=
  fun w =>
    match m (o, w) with
    | (Return v, (o', w')) => (Return (v, o'), w')
    | (Raise e, (_, w')) => (Raise e, w')
    end.

(** ** Helpers of [_compat] *)

(** Modelled from the spec: [bit_length] of [_compat] is not under src/;
    it is the number of bits of the magnitude ("bitlen(p)"). *)
Definition bit_length (v : Z) : Z :=
  if v =? 0 then 0 else Z.log2 (Z.abs v) + 1.

(** Modelled from the spec: [bytes_to_int(val, "little")] of [_compat] is
    not under src/; the bytes "interpreted as a little-endian unsigned
    integer". *)
Fixpoint bytes_to_int (val : bytes) : Z :=
  match val with
  | [] => 0
  | b :: rest => byte_val b + 256 * bytes_to_int rest
  end.

(** Modelled from the spec: [int_to_bytes(val, length, "little")] of
    [_compat] is not under src/; "little_endian(S, baselen)", the [length]
    low-order bytes of [val], least significant first. *)
Definition int_to_bytes (val : Z) (length : Z) : bytes :=
  map (fun i => byte_of (Z.land (Z.shiftr val (8 * Z.of_nat i)) 255))
      (seq 0 (Z.to_nat length)).

(** [a % b] on integers: the result takes the sign of [b]. *)
Definition py_mod (a b : Z) : result Z :=
  if b =? 0 then Raise ZeroDivisionError else Return (a mod b).

(** [compat26_str] only matters on Python 2.6; it passes bytes through. *)
Definition compat26_str (data : bytes) : bytes := data.

(** [str.format] of an integer. *)
Definition format_int (n : Z) : string := NilZero.string_of_int (Z.to_int n).

(** ** External primitives *)

(** [hashlib]'s SHA-512 and [_sha3.shake_256(data, outlen)]. *)
Class HashPrimitives := {
  sha512 : bytes -> bytes;
  shake_256 : bytes -> Z -> bytes
}.

(** The curve descriptor, [ellipticcurve.CurveEdTw(p, a, d, h, hash_func)]. *)
Module CurveEdTw.
Record t := Build {
  p : Z;
  a : Z;
  d : Z;
  cofactor : Z;
  hash_func : bytes -> bytes
}.

(** Modelled from the spec: [CurveEdTw.__eq__] belongs to the curve
    engine, which is not under src/; "curve identity is compared by
    descriptor equality", that is on the parameters of the curve. *)
Definition __eq__ (c1 c2 : t) : bool :=
  (p c1 =? p c2) && (a c1 =? a c2) && (d c1 =? d c2).
End CurveEdTw.

(** Modelled from the spec: the curve engine ([ellipticcurve.PointEdwards])
    is not under src/; section 6 lists what the module consumes from it.
    [point] is the group element a Python point object stands for. *)
Class CurveEngine := {
  point : Type;
  (** [PointEdwards(curve, x, y, z, t)] *)
  from_coords : CurveEdTw.t -> Z -> Z -> Z -> Z -> point;
  (** [point * integer] *)
  scalar_mul : point -> Z -> point;
  (** [point + point] *)
  point_add : point -> point -> point;
  (** [point.to_bytes()] *)
  encode : point -> bytes;
  (** [PointEdwards.from_bytes(curve, data)]; [None] when it raises *)
  decode : CurveEdTw.t -> bytes -> option point;
  (** [point == point] *)
  point_equal : point -> point -> bool
}.

(** A generator: [PointEdwards(curve, x, y, z, t, order)], of which the
    module uses [curve()], [order()] and the group element. *)
Module Generator.
Record t `{CurveEngine} := Build {
  curve : CurveEdTw.t;
  order : Z;
  element : point
}.
End Generator.

(** ** Curve parameter tables *)

(** edwards25519, defined in RFC7748 *)
Module Ed25519.
Definition _p : Z := 2 ^ 255 - 19.
Definition _a : Z := -1.
Definition _d : Z :=
  37095705934669439343138083508754565189542113879843219016388785533085940283555.
Definition _h : Z := 8.
Definition _Gx : Z :=
  15112221349535400772501151409588531511454012693041857206046113283949847762202.
Definition _Gy : Z :=
  46316835694926478169428394003475163141307993866256225615783033603165251855960.
Definition _r : Z := 2 ^ 252 + 0x14DEF9DEA2F79CD65812631A5CF5D3ED.
End Ed25519.

(** edwards448, defined in RFC7748 *)
Module Ed448.
Definition _p : Z := 2 ^ 448 - 2 ^ 224 - 1.
Definition _a : Z := 1.
Definition _d : Z := (-39081) mod _p.
Definition _h : Z := 4.
Definition _Gx : Z :=
  224580040295924300187604334099896036246789641632564134246125461686950415467406032909029192869357953282578032075146446173674602635247710.
Definition _Gy : Z :=
  298819210078481492676017930443930673437544040154080242095928241372331506189835876003536878655418784733982303233503462500531545062832660.
Definition _r : Z :=
  2 ^ 446 - 0x8335DC163BB124B65129C96FDE933D8D723A70AADC873D6D54A7BB0D.
End Ed448.

Section Curves.
Context `{HashPrimitives} `{CurveEngine}.

Definition _sha512 (data : bytes) : bytes := sha512 (compat26_str data).

Definition curve_ed25519 : CurveEdTw.t :=
  CurveEdTw.Build Ed25519._p Ed25519._a Ed25519._d Ed25519._h _sha512.

Definition generator_ed25519 : Generator.t :=
  Generator.Build _ curve_ed25519 Ed25519._r
    (from_coords curve_ed25519 Ed25519._Gx Ed25519._Gy 1
       (Ed25519._Gx * Ed25519._Gy mod Ed25519._p)).

Definition _shake256 (data : bytes) : bytes := shake_256 data 114.

Definition curve_ed448 : CurveEdTw.t :=
  CurveEdTw.Build Ed448._p Ed448._a Ed448._d Ed448._h _shake256.

Definition generator_ed448 : Generator.t :=
  Generator.Build _ curve_ed448 Ed448._r
    (from_coords curve_ed448 Ed448._Gx Ed448._Gy 1
       (Ed448._Gx * Ed448._Gy mod Ed448._p)).

(** Engine and hash calls, each leaving its mark in the trace. *)
Definition from_bytes (c : CurveEdTw.t) (data : bytes) : M World point :=
  fun w =>
    match decode c data with
    | Some P => (Return P, w ++ [EvDecode])
    | None => (Raise InvalidEncodedPoint, w ++ [EvDecode])
    end.
Definition to_bytes (P : point) : M World bytes := emit EvEncode (encode P).
Definition mul (P : point) (n : Z) : M World point :=
  emit EvScalarMul (scalar_mul P n).
Definition add (P Q : point) : M World point :=
  emit EvPointAdd (point_add P Q).
Definition ne (P Q : point) : M World bool :=
  emit EvPointEqual (negb (point_equal P Q)).
Definition hash (c : CurveEdTw.t) (data : bytes) : M World bytes :=
  emit EvHash (CurveEdTw.hash_func c data).

(** [(bit_length(curve.p()) + 1 + 7) // 8]: plus one for the sign bit
    and round up. *)
Definition baselen_of (c : CurveEdTw.t) : Z :=
  (bit_length (CurveEdTw.p c) + 1 + 7) / 8.

(** The domain separation prefix of [sign] and [verify]. *)
Definition SigEd448 : bytes :=
  (list_byte_of_string "SigEd448" ++ [x00; x00])%list.

Definition dom_of (c : CurveEdTw.t) : bytes :=
  if CurveEdTw.__eq__ c curve_ed448 then SigEd448 else [].
End Curves.


(** ** bytearray item access *)

(** [key[i]] *)
Definition getitem (key : bytes) (i : Z) : result Z :=
  match py_index (length key) i with
  | Some n =>
      match key !! n with
      | Some b => Return (byte_val b)
      | None => Raise (IndexError "bytearray index out of range")
      end
  | None => Raise (IndexError "bytearray index out of range")
  end.

(** [key[i] = v]; the bytearray is updated in place, the embedding hands
    the updated sequence on. *)
Definition setitem (key : bytes) (i : Z) (v : Z) : result bytes :=
  match py_index (length key) i with
  | Some n =>
      if (0 <=? v) && (v <? 256) then Return (<[n := byte_of v]> key)
      else Raise (ValueError "byte must be in range(0, 256)")
  | None => Raise (IndexError "bytearray index out of range")
  end.

(** ** PublicKey *)

Module PublicKey.
Section defs.
Context `{HashPrimitives} `{CurveEngine}.

Record t := Build {
  generator : Generator.t;
  curve : CurveEdTw.t;
  __encoded : bytes;
  baselen : Z;
  __point : point
}.

(** [PublicKey(generator, public_key, public_point=None)].  An engine
    point is an object without a truth value of its own, so
    [if public_point:] asks whether one was supplied. *)
Definition __init__ (generator : Generator.t) (public_key : bytes)
    (public_point : option point) : M World t :=
  (let curve := Generator.curve generator in
   let baselen := baselen_of curve in
   if negb (len public_key =? baselen) then
     raise (ValueError
              ("Incorrect size of the public key, expected: "
               ++ format_int baselen ++ " bytes"))
   else
     pt <- match public_point with
           | Some P => ret P
           | None => from_bytes curve public_key
           end ;;
     ret (Build generator curve public_key baselen pt))%monad.

Definition __eq__ (self other : t) : bool :=
  CurveEdTw.__eq__ (curve self) (curve other)
  && bool_decide (__encoded self = __encoded other).

Definition __ne__ (self other : t) : bool := negb (__eq__ self other).

Definition public_point (self : t) : point := __point self.

Definition public_key (self : t) : bytes := __encoded self.

(** Verify a Pure EdDSA signature over data. *)
Definition verify (data signature : bytes) : M (t * World) bool :=
  (this <- self ;;
   let data := compat26_str data in
   if negb (len signature =? 2 * baselen this) then
     raise (ValueError
              ("Invalid signature length, expected: "
               ++ format_int (2 * baselen this) ++ " bytes"))
   else
     R <- extern (from_bytes (curve this) (slice_to signature (baselen this))) ;;
     let S := bytes_to_int (slice_from signature (baselen this)) in
     if S >=? Generator.order (generator this) then
       raise (ValueError "Invalid signature")
     else
       let dom := dom_of (curve this) in
       R_bytes <- extern (to_bytes R) ;;
       digest <- extern (hash (curve this)
                           (dom ++ R_bytes ++ __encoded this ++ data)%list) ;;
       let k := bytes_to_int digest in
       lhs <- extern (mul (Generator.element (generator this)) S) ;;
       Ak <- extern (mul (__point this) k) ;;
       rhs <- extern (add Ak R) ;;
       differ <- extern (ne lhs rhs) ;;
       if differ then raise (ValueError "Invalid signature")
       else ret true)%monad.
End defs.
End PublicKey.

(** ** PrivateKey *)

Module PrivateKey.
Section defs.
Context `{HashPrimitives} `{CurveEngine}.

Record t := Build {
  generator : Generator.t;
  curve : CurveEdTw.t;
  baselen : Z;
  __private_key : bytes;
  __h : bytes;
  __public_key : option PublicKey.t;
  __s : Z
}.

(** Make sure the key is not in a small subgroup, and that the highest
    bit is set but no higher.  Of [self] the method reads the curve only. *)
Definition _key_prune (curve : CurveEdTw.t) (key : bytes) : result bytes :=
  (let h := CurveEdTw.cofactor curve in
   try h_log := (if h =? 4 then Return 2
                 else if h =? 8 then Return 3
                 else Raise (ValueError "Only cofactor 4 and 8 curves supported")) in
   try k0 := getitem key 0 in
   try key := setitem key 0 (Z.land k0 (Z.lnot (Z.shiftl 1 h_log - 1))) in
   let l := bit_length (CurveEdTw.p curve) in
   if l mod 8 =? 0 then
     try key := setitem key (-1) 0 in
     try k2 := getitem key (-2) in
     try key := setitem key (-2) (Z.lor k2 0x80) in
     Return key
   else
     try k1 := getitem key (-1) in
     try key := setitem key (-1)
                  (Z.lor (Z.land k1 (Z.shiftl 1 (l mod 8) - 1))
                         (Z.shiftl 1 (l mod 8 - 1))) in
     Return key)%monad.

(** [PrivateKey(generator, private_key)] *)
Definition __init__ (generator : Generator.t) (private_key : bytes)
    : M World t :=
  (let curve := Generator.curve generator in
   let baselen := baselen_of curve in
   if negb (len private_key =? baselen) then
     raise (ValueError
              ("Incorrect size of private key, expected: "
               ++ format_int baselen ++ " bytes"))
   else
     h <- hash curve private_key ;;
     let a := slice_to h baselen in
     a <- lift_result (_key_prune curve a) ;;
     let scalar := bytes_to_int a in
     ret (Build generator curve baselen private_key h None scalar))%monad.

Definition private_key (self : t) : bytes := __private_key self.

Definition __eq__ (self other : t) : bool :=
  CurveEdTw.__eq__ (curve self) (curve other)
  && bool_decide (__private_key self = __private_key other).

Definition __ne__ (self other : t) : bool := negb (__eq__ self other).

Definition set_public_key (this : t) (pk : PublicKey.t) : t :=
  Build (generator this) (curve this) (baselen this) (__private_key this)
        (__h this) (Some pk) (__s this).

(** Generate the public key based on the included private key. *)
Definition public_key : M (t * World) PublicKey.t :=
  (this <- self ;;
   match __public_key this with
   | Some pk => ret pk
   | None =>
       public_point <- extern (mul (Generator.element (generator this))
                                   (__s this)) ;;
       encoding <- extern (to_bytes public_point) ;;
       pk <- extern (PublicKey.__init__ (generator this) encoding
                                        (Some public_point)) ;;
       _ <- set_self (set_public_key this pk) ;;
       ret pk
   end)%monad.

(** Perform a Pure EdDSA signature over data. *)
Definition sign (data : bytes) : M (t * World) bytes :=
  (let data := compat26_str data in
   pk <- public_key ;;
   let A := PublicKey.public_key pk in
   this <- self ;;
   let prefix := slice_from (__h this) (baselen this) in
   let dom := dom_of (curve this) in
   digest_r <- extern (hash (curve this) (dom ++ prefix ++ data)%list) ;;
   let r := bytes_to_int digest_r in
   Rpoint <- extern (mul (Generator.element (generator this)) r) ;;
   R <- extern (to_bytes Rpoint) ;;
   digest_k <- extern (hash (curve this) (dom ++ R ++ A ++ data)%list) ;;
   let k := bytes_to_int digest_k in
   k <- lift_result (py_mod k (Generator.order (generator this))) ;;
   S <- lift_result (py_mod (r + k * __s this)
                            (Generator.order (generator this))) ;;
   ret (R ++ int_to_bytes S (baselen this))%list)%monad.
End defs.
End PrivateKey.


(** ** The programs the properties speak about *)

Section Programs.
Context `{HashPrimitives} `{CurveEngine}.

(** [PrivateKey(generator, seed).public_key().verify(message,
    PrivateKey(generator, seed).sign(message))] *)
Definition sign_then_verify (generator : Generator.t) (seed message : bytes)
    : M World bool :=
  (sk1 <- PrivateKey.__init__ generator seed ;;
   r1 <- call sk1 PrivateKey.public_key ;;
   sk2 <- PrivateKey.__init__ generator seed ;;
   r2 <- call sk2 (PrivateKey.sign message) ;;
   r3 <- call (fst r1) (PublicKey.verify message (fst r2)) ;;
   ret (fst r3))%monad.

(** Signing, handing the public key on as bytes, and verifying with the
    key built from them:
    [sk = PrivateKey(generator, seed); sig = sk.sign(message);
     pub = PublicKey(generator, sk.public_key().public_key());
     pub.verify(message, sig)] *)
Definition sign_export_verify (generator : Generator.t) (seed message : bytes)
    : M World bool :=
  (sk <- PrivateKey.__init__ generator seed ;;
   r1 <- call sk (PrivateKey.sign message) ;;
   r2 <- call (snd r1) PrivateKey.public_key ;;
   pub <- PublicKey.__init__ generator (PublicKey.public_key (fst r2)) None ;;
   r3 <- call pub (PublicKey.verify message (fst r1)) ;;
   ret (fst r3))%monad.

(** The states a [PrivateKey] built from [(generator, seed)] can be in:
    freshly constructed, or after any number of [public_key()] and
    [sign(data)] calls, whatever the trace was at each of them. *)
Inductive reachable (generator : Generator.t) (seed : bytes)
    : PrivateKey.t -> Prop :=
| reach_init w sk w' :
    PrivateKey.__init__ generator seed w = (Return sk, w') ->
    reachable generator seed sk
| reach_public_key sk w r sk' w' :
    reachable generator seed sk ->
    PrivateKey.public_key (sk, w) = (r, (sk', w')) ->
    reachable generator seed sk'
| reach_sign sk data w r sk' w' :
    reachable generator seed sk ->
    PrivateKey.sign data (sk, w) = (r, (sk', w')) ->
    reachable generator seed sk'.

(** The [PublicKey] a private key stands for: the one [public_key()]
    builds on its first call. *)
Definition derived_public_key (sk : PrivateKey.t) : PublicKey.t :=
  let g := PrivateKey.generator sk in
  let P := scalar_mul (Generator.element g) (PrivateKey.__s sk) in
  PublicKey.Build g (Generator.curve g) (encode P)
    (baselen_of (Generator.curve g)) P.

(** [sk] is the freshly built [sk0], or [sk0] with its public key stored. *)
Definition cache_invariant (sk0 sk : PrivateKey.t) : Prop :=
  PrivateKey.__public_key sk0 = None
  /\ (sk = sk0
      \/ (len (PublicKey.__encoded (derived_public_key sk0))
           = baselen_of (Generator.curve (PrivateKey.generator sk0))
          /\ sk = PrivateKey.set_public_key sk0 (derived_public_key sk0))).

(** What the module needs from the engine for a generator [g]: encodings
    of the subgroup's elements have the curve's fixed length and decode
    back, equality is reflexive, and multiples of the base point add and
    compose as in a group in which the base point has order dividing
    [order]. *)
Record engine_laws (g : Generator.t) : Prop := {
  encode_length : forall n, 0 <= n ->
    len (encode (scalar_mul (Generator.element g) n))
    = baselen_of (Generator.curve g);
  decode_encode : forall n, 0 <= n ->
    decode (Generator.curve g) (encode (scalar_mul (Generator.element g) n))
    = Some (scalar_mul (Generator.element g) n);
  point_equal_refl : forall P, point_equal P P = true;
  mul_add : forall m n, 0 <= m -> 0 <= n ->
    scalar_mul (Generator.element g) (m + n)
    = point_add (scalar_mul (Generator.element g) m)
                (scalar_mul (Generator.element g) n);
  mul_mul : forall m n, 0 <= m -> 0 <= n ->
    scalar_mul (scalar_mul (Generator.element g) m) n
    = scalar_mul (Generator.element g) (m * n);
  mul_order :
    scalar_mul (Generator.element g) (Generator.order g)
    = scalar_mul (Generator.element g) 0
}.

(** The hash primitives return digests of their fixed length. *)
Record hash_laws : Prop := {
  sha512_length : forall data, len (sha512 data) = 64;
  shake_256_length : forall data n, 0 <= n -> len (shake_256 data n) = n
}.
End Programs.

(** ** A small engine to run the module on

    The cyclic group of the integers modulo the subgroup order, written
    additively with base point 1: a point records the byte width of its
    curve, the order and its residue.  Encoding is the little-endian
    residue; a residue that is not below the order does not decode. *)
Module Toy.
Record elt := Elt { width : Z; modulus : Z; value : Z }.

Definition order_for (c : CurveEdTw.t) : Z :=
  if CurveEdTw.p c =? Ed25519._p then Ed25519._r else Ed448._r.

#[export] Instance engine : CurveEngine := {|
  point := elt;
  from_coords c x y z t := Elt (baselen_of c) (order_for c) 1;
  scalar_mul P n := Elt (width P) (modulus P) ((value P * n) mod modulus P);
  point_add P Q := Elt (width P) (modulus P) ((value P + value Q) mod modulus P);
  encode P := int_to_bytes (value P) (width P);
  decode c data :=
    let v := bytes_to_int data in
    if v <? order_for c then Some (Elt (baselen_of c) (order_for c) v)
    else None;
  point_equal P Q :=
    (width P =? width Q) && (modulus P =? modulus Q) && (value P =? value Q)
|}.

(** Digests of the right length that depend on their input. *)
Definition pad (n : Z) (data : bytes) : bytes :=
  take (Z.to_nat n) (data ++ repeat x01 (Z.to_nat n)).

#[export] Instance hashes : HashPrimitives := {|
  sha512 data := pad 64 data;
  shake_256 data n := pad n data
|}.

(** The public key of the scalar 5 on ed25519, and four signatures to try
    on it: an undecodable [R] with a large [S], a decodable [R] with a
    large [S], a decodable [R] with [S = order - 1], and a decodable [R]
    with [S = 1]. *)
Definition key_bytes : bytes := int_to_bytes 5 32.

Definition public_key : PublicKey.t :=
  PublicKey.Build generator_ed25519 curve_ed25519 key_bytes 32
    (Elt 32 Ed25519._r 5).

Definition sig_bad_R_large_S : bytes := repeat xff 64.

Definition sig_large_S : bytes := repeat x00 32 ++ repeat xff 32.

Definition sig_top_S : bytes :=
  repeat x00 32 ++ int_to_bytes (Ed25519._r - 1) 32.

Definition sig_small_S : bytes := repeat x00 32 ++ int_to_bytes 1 32.

Definition seed_25519 : bytes := repeat x2a 32.

Definition seed_448 : bytes := repeat x2a 57.

(** A curve of cofactor 1 with one-byte keys, and a generator on it. *)
Definition curve_cofactor_1 : CurveEdTw.t :=
  CurveEdTw.Build 13 1 2 1 (fun data => data).

Definition generator_cofactor_1 : Generator.t :=
  Generator.Build _ curve_cofactor_1 7 (Elt 1 7 1).
End Toy.


(** * Properties *)

(** ** Bytes *)

Lemma byte_val_range (b : byte) : 0 <= byte_val b < 256.
Proof.
  unfold byte_val. pose proof (Byte.to_N_bounded b). lia.
Qed.

Lemma byte_of_val (b : byte) : byte_of (byte_val b) = b.
Proof.
  unfold byte_of, byte_val. rewrite N2Z.id, Byte.of_to_N. reflexivity.
Qed.

Lemma byte_val_of (z : Z) : 0 <= z < 256 -> byte_val (byte_of z) = z.
Proof.
  intros Hz. unfold byte_of, byte_val.
  destruct (Byte.of_N (Z.to_N z)) as [b|] eqn:E.
  - apply Byte.to_of_N in E. rewrite E. lia.
  - apply Byte.of_N_None_iff in E. lia.
Qed.

Lemma bytes_to_int_app (l1 l2 : bytes) :
  bytes_to_int (l1 ++ l2)
  = bytes_to_int l1 + 2 ^ (8 * len l1) * bytes_to_int l2.
Proof.
  induction l1 as [|b l1 IH]; unfold len in *; simpl length.
  - simpl. lia.
  - change ((b :: l1) ++ l2) with (b :: (l1 ++ l2)).
    change (bytes_to_int (b :: l1 ++ l2))
      with (byte_val b + 256 * bytes_to_int (l1 ++ l2)).
    change (bytes_to_int (b :: l1)) with (byte_val b + 256 * bytes_to_int l1).
    rewrite IH.
    replace (8 * Z.of_nat (S (length l1))) with (8 + 8 * Z.of_nat (length l1)) by lia.
    rewrite Z.pow_add_r by lia. change (2 ^ 8) with 256. ring.
Qed.

Lemma bytes_to_int_range (l : bytes) :
  0 <= bytes_to_int l < 2 ^ (8 * len l).
Proof.
  induction l as [|b l IH]; unfold len in *; simpl length.
  - simpl. lia.
  - change (bytes_to_int (b :: l)) with (byte_val b + 256 * bytes_to_int l).
    replace (8 * Z.of_nat (S (length l))) with (8 + 8 * Z.of_nat (length l)) by lia.
    rewrite Z.pow_add_r by lia. change (2 ^ 8) with 256.
    pose proof (byte_val_range b). lia.
Qed.

Lemma len_int_to_bytes (v n : Z) : 0 <= n -> len (int_to_bytes v n) = n.
Proof.
  intros Hn. unfold len, int_to_bytes.
  rewrite length_map, length_seq. lia.
Qed.

Lemma int_to_bytes_seq (v : Z) (k : nat) (start : nat) :
  bytes_to_int
    (map (fun i => byte_of (Z.land (Z.shiftr v (8 * Z.of_nat i)) 255))
         (seq start k))
  = Z.shiftr v (8 * Z.of_nat start) mod 2 ^ (8 * Z.of_nat k).
Proof.
  revert start. induction k as [|k IH]; intros start.
  - simpl. rewrite Z.mod_1_r. reflexivity.
  - change (seq start (S k)) with (start :: seq (S start) k).
    rewrite map_cons.
    change (bytes_to_int (?b :: ?l)) with (byte_val b + 256 * bytes_to_int l).
    rewrite IH.
    change 255 with (Z.ones 8). rewrite Z.land_ones by lia.
    rewrite byte_val_of by (apply Z.mod_pos_bound; lia).
    replace (8 * Z.of_nat (S start)) with (8 * Z.of_nat start + 8) by lia.
    rewrite <- Z.shiftr_shiftr by lia.
    set (x := Z.shiftr v (8 * Z.of_nat start)).
    rewrite Z.shiftr_div_pow2 by lia.
    replace (8 * Z.of_nat (S k)) with (8 + 8 * Z.of_nat k) by lia.
    rewrite Z.pow_add_r by lia.
    rewrite Z.rem_mul_r by lia. change (2 ^ 8) with 256. reflexivity.
Qed.

Lemma bytes_to_int_to_bytes (v n : Z) :
  0 <= n -> 0 <= v < 2 ^ (8 * n) ->
  bytes_to_int (int_to_bytes v n) = v.
Proof.
  intros Hn Hv. unfold int_to_bytes. rewrite int_to_bytes_seq.
  rewrite Z.shiftr_0_r, Z2Nat.id by lia. apply Z.mod_small. lia.
Qed.

(** ** bytearray access *)

Ltac byte_enum b :=
  destruct b; vm_compute; repeat split; solve [reflexivity | discriminate].

Lemma getitem_at (key : bytes) (i : Z) (n : nat) (b : byte) :
  py_index (length key) i = Some n -> key !! n = Some b ->
  getitem key i = Return (byte_val b).
Proof.
  intros Hi Hb. unfold getitem. rewrite Hi, Hb. reflexivity.
Qed.

Lemma setitem_at (key : bytes) (i : Z) (n : nat) (v : Z) :
  py_index (length key) i = Some n -> 0 <= v < 256 ->
  setitem key i v = Return (<[n := byte_of v]> key).
Proof.
  intros Hi Hv. unfold setitem. rewrite Hi.
  destruct (Z.leb_spec 0 v); [|lia].
  destruct (Z.ltb_spec v 256); [|lia]. reflexivity.
Qed.

(** ** Key pruning *)

Lemma clear_low_bits (b : byte) :
  (0 <= Z.land (byte_val b) (Z.lnot (Z.shiftl 1 3 - 1)) < 256
   /\ Z.land (byte_val b) (Z.lnot (Z.shiftl 1 3 - 1)) mod 8 = 0)
  /\ (0 <= Z.land (byte_val b) (Z.lnot (Z.shiftl 1 2 - 1)) < 256
      /\ Z.land (byte_val b) (Z.lnot (Z.shiftl 1 2 - 1)) mod 4 = 0).
Proof. byte_enum b. Qed.

Lemma clear_low_bits_idem (b : byte) (h_log : Z) :
  h_log = 2 \/ h_log = 3 ->
  Z.land (byte_val (byte_of (Z.land (byte_val b) (Z.lnot (Z.shiftl 1 h_log - 1)))))
         (Z.lnot (Z.shiftl 1 h_log - 1))
  = Z.land (byte_val b) (Z.lnot (Z.shiftl 1 h_log - 1)).
Proof. intros [-> | ->]; byte_enum b. Qed.

Lemma fix_top_bit_25519 (b : byte) :
  64 <= Z.lor (Z.land (byte_val b) (Z.shiftl 1 7 - 1)) (Z.shiftl 1 (7 - 1)) < 128.
Proof. byte_enum b. Qed.

Lemma fix_top_bit_25519_idem (b : byte) :
  Z.lor (Z.land (byte_val (byte_of (Z.lor (Z.land (byte_val b) (Z.shiftl 1 7 - 1))
                                          (Z.shiftl 1 (7 - 1)))))
                (Z.shiftl 1 7 - 1))
        (Z.shiftl 1 (7 - 1))
  = Z.lor (Z.land (byte_val b) (Z.shiftl 1 7 - 1)) (Z.shiftl 1 (7 - 1)).
Proof. byte_enum b. Qed.

Lemma set_high_bit (b : byte) : 128 <= Z.lor (byte_val b) 128 < 256.
Proof. byte_enum b. Qed.

Lemma set_high_bit_idem (b : byte) :
  Z.lor (byte_val (byte_of (Z.lor (byte_val b) 128))) 128
  = Z.lor (byte_val b) 128.
Proof. byte_enum b. Qed.

Section KeyPrune.
Context `{HashPrimitives}.

Lemma baselen_ed25519 : baselen_of curve_ed25519 = 32.
Proof. vm_compute. reflexivity. Qed.

Lemma baselen_ed448 : baselen_of curve_ed448 = 57.
Proof. vm_compute. reflexivity. Qed.

Lemma key_prune_ed25519 (key : bytes) (b0 b31 : byte) :
  length key = 32%nat -> key !! 0%nat = Some b0 -> key !! 31%nat = Some b31 ->
  PrivateKey._key_prune curve_ed25519 key
  = Return (<[31%nat := byte_of (Z.lor (Z.land (byte_val b31) (Z.shiftl 1 7 - 1))
                                       (Z.shiftl 1 (7 - 1)))]>
              (<[0%nat := byte_of (Z.land (byte_val b0)
                                          (Z.lnot (Z.shiftl 1 3 - 1)))]> key)).
Proof.
  intros Hlen H0 H31. unfold PrivateKey._key_prune.
  change (CurveEdTw.cofactor curve_ed25519) with 8.
  change (bit_length (CurveEdTw.p curve_ed25519)) with 255.
  change (8 =? 4) with false. change (8 =? 8) with true.
  change (255 mod 8) with 7. change (7 =? 0) with false.
  cbv beta iota.
  rewrite (getitem_at key 0 0 b0) by (rewrite ?Hlen; done).
  cbn [rbind].
  rewrite (setitem_at key 0 0);
    [| rewrite Hlen; done | apply clear_low_bits].
  cbn [rbind].
  rewrite (getitem_at _ (-1) 31 b31);
    [| rewrite length_insert, Hlen; done
     | rewrite list_lookup_insert_ne by done; exact H31].
  cbn [rbind].
  rewrite (setitem_at _ (-1) 31);
    [| rewrite length_insert, Hlen; done
     | pose proof (fix_top_bit_25519 b31); lia].
  reflexivity.
Qed.

Lemma key_prune_ed448 (key : bytes) (b0 b55 : byte) :
  length key = 57%nat -> key !! 0%nat = Some b0 -> key !! 55%nat = Some b55 ->
  PrivateKey._key_prune curve_ed448 key
  = Return (<[55%nat := byte_of (Z.lor (byte_val b55) 128)]>
              (<[56%nat := byte_of 0]>
                 (<[0%nat := byte_of (Z.land (byte_val b0)
                                             (Z.lnot (Z.shiftl 1 2 - 1)))]> key))).
Proof.
  intros Hlen H0 H55. unfold PrivateKey._key_prune.
  change (CurveEdTw.cofactor curve_ed448) with 4.
  change (bit_length (CurveEdTw.p curve_ed448)) with 448.
  change (4 =? 4) with true.
  change (448 mod 8) with 0. change (0 =? 0) with true.
  cbv beta iota.
  rewrite (getitem_at key 0 0 b0) by (rewrite ?Hlen; done).
  cbn [rbind].
  rewrite (setitem_at key 0 0);
    [| rewrite Hlen; done | apply clear_low_bits].
  cbn [rbind].
  rewrite (setitem_at _ (-1) 56);
    [| rewrite length_insert, Hlen; done | lia].
  cbn [rbind].
  rewrite (getitem_at _ (-2) 55 b55);
    [| rewrite !length_insert, Hlen; done
     | rewrite !list_lookup_insert_ne by done; exact H55].
  cbn [rbind].
  rewrite (setitem_at _ (-2) 55);
    [| rewrite !length_insert, Hlen; done
     | pose proof (set_high_bit b55); lia].
  reflexivity.
Qed.

Lemma bytes_to_int_head (l : bytes) (b : byte) :
  l !! 0%nat = Some b -> bytes_to_int l = byte_val b + 256 * bytes_to_int (drop 1 l).
Proof.
  destruct l as [|b' l]; intros Hb; [discriminate|].
  injection Hb as ->. reflexivity.
Qed.

Lemma bytes_to_int_split (n : nat) (l : bytes) :
  (n <= length l)%nat ->
  bytes_to_int l
  = bytes_to_int (take n l) + 2 ^ (8 * Z.of_nat n) * bytes_to_int (drop n l).
Proof.
  intros Hn. rewrite <- (take_drop n l) at 1. rewrite bytes_to_int_app.
  unfold len. rewrite length_take. repeat f_equal. lia.
Qed.

Lemma bytes_to_int_low (n : nat) (l : bytes) :
  0 <= bytes_to_int (take n l) < 2 ^ (8 * Z.of_nat n).
Proof.
  pose proof (bytes_to_int_range (take n l)) as Hr. unfold len in Hr.
  rewrite length_take in Hr.
  assert (2 ^ (8 * Z.of_nat (n `min` length l)) <= 2 ^ (8 * Z.of_nat n))
    by (apply Z.pow_le_mono_r; lia).
  lia.
Qed.

Lemma bit_length_bounds (s k : Z) :
  0 < k -> 2 ^ (k - 1) <= s < 2 ^ k -> bit_length s = k.
Proof.
  intros Hk Hs. unfold bit_length.
  assert (0 < 2 ^ (k - 1)) by (apply Z.pow_pos_nonneg; lia).
  destruct (Z.eqb_spec s 0); [lia|].
  rewrite Z.abs_eq by lia.
  rewrite (Z.log2_unique s (k - 1)); [lia | lia |].
  replace (Z.succ (k - 1)) with k by lia. exact Hs.
Qed.

Lemma scalar_ed25519 (key : bytes) :
  len key = baselen_of curve_ed25519 ->
  exists key', PrivateKey._key_prune curve_ed25519 key = Return key'
    /\ bytes_to_int key' mod 8 = 0
    /\ 2 ^ 254 <= bytes_to_int key' < 2 ^ 255.
Proof.
  rewrite baselen_ed25519. unfold len. intros Hlen.
  assert (Hl : length key = 32%nat) by lia.
  destruct (lookup_lt_is_Some_2 key 0) as [b0 H0]; [lia|].
  destruct (lookup_lt_is_Some_2 key 31) as [b31 H31]; [lia|].
  eexists. split; [apply (key_prune_ed25519 key b0 b31); assumption|].
  set (top := byte_of _). set (low := byte_of _).
  set (key' := <[31%nat:=top]> _).
  assert (Hlen' : length key' = 32%nat)
    by (unfold key'; rewrite !length_insert; exact Hl).
  split.
  - rewrite (bytes_to_int_head key' low).
    + unfold low. rewrite byte_val_of by apply clear_low_bits.
      pose proof (clear_low_bits b0) as [[_ Hm] _].
      rewrite Z.add_mod, Hm by lia.
      replace 256 with (32 * 8) by lia.
      rewrite <- Z.mul_assoc, (Z.mul_comm 8), Z.mul_assoc, Z.mod_mul by lia.
      reflexivity.
    + unfold key'. rewrite list_lookup_insert_ne by done.
      apply list_lookup_insert_eq. lia.
  - rewrite (bytes_to_int_split 31 key') by lia.
    rewrite (drop_S key' top 31)
      by (unfold key'; apply list_lookup_insert_eq; rewrite length_insert; lia).
    rewrite drop_ge by lia.
    pose proof (bytes_to_int_low 31 key') as Hlow.
    change (bytes_to_int [top]) with (byte_val top + 256 * 0).
    unfold top. rewrite byte_val_of
      by (pose proof (fix_top_bit_25519 b31); lia).
    pose proof (fix_top_bit_25519 b31) as Hhi.
    change (8 * Z.of_nat 31) with 248 in *.
    replace (2 ^ 254) with (2 ^ 248 * 64) by reflexivity.
    replace (2 ^ 255) with (2 ^ 248 * 128) by reflexivity.
    nia.
Qed.

Lemma scalar_ed448 (key : bytes) :
  len key = baselen_of curve_ed448 ->
  exists key', PrivateKey._key_prune curve_ed448 key = Return key'
    /\ bytes_to_int key' mod 4 = 0
    /\ 2 ^ 447 <= bytes_to_int key' < 2 ^ 448.
Proof.
  rewrite baselen_ed448. unfold len. intros Hlen.
  assert (Hl : length key = 57%nat) by lia.
  destruct (lookup_lt_is_Some_2 key 0) as [b0 H0]; [lia|].
  destruct (lookup_lt_is_Some_2 key 55) as [b55 H55]; [lia|].
  eexists. split; [apply (key_prune_ed448 key b0 b55); assumption|].
  set (top := byte_of (Z.lor _ _)). set (low := byte_of (Z.land _ _)).
  set (key' := <[55%nat:=top]> _).
  assert (Hlen' : length key' = 57%nat)
    by (unfold key'; rewrite !length_insert; exact Hl).
  split.
  - rewrite (bytes_to_int_head key' low).
    + unfold low. rewrite byte_val_of by apply clear_low_bits.
      pose proof (clear_low_bits b0) as [_ [_ Hm]].
      rewrite Z.add_mod, Hm by lia.
      replace 256 with (64 * 4) by lia.
      rewrite <- Z.mul_assoc, (Z.mul_comm 4), Z.mul_assoc, Z.mod_mul by lia.
      reflexivity.
    + unfold key'. rewrite !list_lookup_insert_ne by done.
      apply list_lookup_insert_eq. lia.
  - rewrite (bytes_to_int_split 55 key') by lia.
    rewrite (drop_S key' top 55)
      by (unfold key'; apply list_lookup_insert_eq; rewrite !length_insert; lia).
    rewrite (drop_S key' (byte_of 0) 56)
      by (unfold key'; rewrite list_lookup_insert_ne by done;
          apply list_lookup_insert_eq; rewrite !length_insert; lia).
    rewrite drop_ge by lia.
    pose proof (bytes_to_int_low 55 key') as Hlow.
    change (bytes_to_int [top; byte_of 0]) with (byte_val top + 256 * (0 + 256 * 0)).
    unfold top. rewrite byte_val_of
      by (pose proof (set_high_bit b55); lia).
    pose proof (set_high_bit b55) as Hhi.
    change (8 * Z.of_nat 55) with 440 in *.
    replace (2 ^ 447) with (2 ^ 440 * 128) by reflexivity.
    replace (2 ^ 448) with (2 ^ 440 * 256) by reflexivity.
    nia.
Qed.

(** C4. Pruning a byte string of the curve's length gives a scalar that is
    a multiple of the cofactor and has exactly as many bits as the prime:
    on ed25519 a multiple of 8 in [2^254, 2^255), on ed448 a multiple of 4
    in [2^447, 2^448). *)
Theorem key_prune_scalar_range :
  (forall key : bytes, len key = baselen_of curve_ed25519 ->
     exists key', PrivateKey._key_prune curve_ed25519 key = Return key'
       /\ CurveEdTw.cofactor curve_ed25519 = 8
       /\ bit_length (CurveEdTw.p curve_ed25519) = 255
       /\ bytes_to_int key' mod 8 = 0
       /\ 2 ^ 254 <= bytes_to_int key' < 2 ^ 255
       /\ bit_length (bytes_to_int key') = 255)
  /\ (forall key : bytes, len key = baselen_of curve_ed448 ->
     exists key', PrivateKey._key_prune curve_ed448 key = Return key'
       /\ CurveEdTw.cofactor curve_ed448 = 4
       /\ bit_length (CurveEdTw.p curve_ed448) = 448
       /\ bytes_to_int key' mod 4 = 0
       /\ 2 ^ 447 <= bytes_to_int key' < 2 ^ 448
       /\ bit_length (bytes_to_int key') = 448).
Proof.
  split; intros key Hlen.
  - destruct (scalar_ed25519 key Hlen) as (key' & Hp & Hm & Hr).
    exists key'. repeat split; try assumption; try reflexivity; try apply Hr.
    apply bit_length_bounds; [lia | exact Hr].
  - destruct (scalar_ed448 key Hlen) as (key' & Hp & Hm & Hr).
    exists key'. repeat split; try assumption; try reflexivity; try apply Hr.
    apply bit_length_bounds; [lia | exact Hr].
Qed.

Lemma idempotent_ed25519 (key : bytes) :
  len key = baselen_of curve_ed25519 ->
  exists key', PrivateKey._key_prune curve_ed25519 key = Return key'
    /\ PrivateKey._key_prune curve_ed25519 key' = Return key'.
Proof.
  rewrite baselen_ed25519. unfold len. intros Hlen.
  assert (Hl : length key = 32%nat) by lia.
  destruct (lookup_lt_is_Some_2 key 0) as [b0 H0]; [lia|].
  destruct (lookup_lt_is_Some_2 key 31) as [b31 H31]; [lia|].
  eexists. split; [apply (key_prune_ed25519 key b0 b31); assumption|].
  set (top := byte_of _). set (low := byte_of _).
  set (key' := <[31%nat:=top]> _).
  assert (Hlen' : length key' = 32%nat)
    by (unfold key'; rewrite !length_insert; exact Hl).
  assert (Hlow : key' !! 0%nat = Some low).
  { unfold key'. rewrite list_lookup_insert_ne by done.
    apply list_lookup_insert_eq. lia. }
  assert (Htop : key' !! 31%nat = Some top).
  { unfold key'. apply list_lookup_insert_eq. rewrite length_insert. lia. }
  rewrite (key_prune_ed25519 key' low top) by assumption.
  unfold top at 1. rewrite fix_top_bit_25519_idem. fold top.
  unfold low at 1. rewrite clear_low_bits_idem by (right; reflexivity). fold low.
  rewrite (list_insert_id key' 0 low) by assumption.
  rewrite (list_insert_id key' 31 top) by assumption.
  reflexivity.
Qed.

Lemma idempotent_ed448 (key : bytes) :
  len key = baselen_of curve_ed448 ->
  exists key', PrivateKey._key_prune curve_ed448 key = Return key'
    /\ PrivateKey._key_prune curve_ed448 key' = Return key'.
Proof.
  rewrite baselen_ed448. unfold len. intros Hlen.
  assert (Hl : length key = 57%nat) by lia.
  destruct (lookup_lt_is_Some_2 key 0) as [b0 H0]; [lia|].
  destruct (lookup_lt_is_Some_2 key 55) as [b55 H55]; [lia|].
  eexists. split; [apply (key_prune_ed448 key b0 b55); assumption|].
  set (top := byte_of (Z.lor _ _)). set (low := byte_of (Z.land _ _)).
  set (key' := <[55%nat:=top]> _).
  assert (Hlen' : length key' = 57%nat)
    by (unfold key'; rewrite !length_insert; exact Hl).
  assert (Hlow : key' !! 0%nat = Some low).
  { unfold key'. rewrite !list_lookup_insert_ne by done.
    apply list_lookup_insert_eq. lia. }
  assert (Hzero : key' !! 56%nat = Some (byte_of 0)).
  { unfold key'. rewrite list_lookup_insert_ne by done.
    apply list_lookup_insert_eq. rewrite length_insert. lia. }
  assert (Htop : key' !! 55%nat = Some top).
  { unfold key'. apply list_lookup_insert_eq. rewrite !length_insert. lia. }
  rewrite (key_prune_ed448 key' low top) by assumption.
  unfold top at 1. rewrite set_high_bit_idem. fold top.
  unfold low at 1. rewrite clear_low_bits_idem by (left; reflexivity). fold low.
  rewrite (list_insert_id key' 0 low) by assumption.
  rewrite (list_insert_id key' 56 (byte_of 0)) by assumption.
  rewrite (list_insert_id key' 55 top) by assumption.
  reflexivity.
Qed.

(** C9. Key pruning is idempotent on both curves: pruning the pruned bytes
    returns them unchanged, hence the same scalar. *)
Theorem key_prune_idempotent (c : CurveEdTw.t) (key : bytes) :
  c = curve_ed25519 \/ c = curve_ed448 ->
  len key = baselen_of c ->
  exists key', PrivateKey._key_prune c key = Return key'
    /\ PrivateKey._key_prune c key' = Return key'.
Proof.
  intros [-> | ->] Hlen.
  - exact (idempotent_ed25519 key Hlen).
  - exact (idempotent_ed448 key Hlen).
Qed.
End KeyPrune.


(** ** The methods as equations *)

Section Methods.
Context `{HashPrimitives} `{CurveEngine}.

Lemma PublicKey_init_eq (g : Generator.t) (public_key : bytes)
    (public_point : option point) (w : World) :
  PublicKey.__init__ g public_key public_point w
  = if len public_key =? baselen_of (Generator.curve g) then
      match public_point with
      | Some P =>
          (Return (PublicKey.Build g (Generator.curve g) public_key
                     (baselen_of (Generator.curve g)) P), w)
      | None =>
          match decode (Generator.curve g) public_key with
          | Some P =>
              (Return (PublicKey.Build g (Generator.curve g) public_key
                         (baselen_of (Generator.curve g)) P), w ++ [EvDecode])
          | None => (Raise InvalidEncodedPoint, w ++ [EvDecode])
          end
      end
    else
      (Raise (ValueError ("Incorrect size of the public key, expected: "
                          ++ format_int (baselen_of (Generator.curve g))
                          ++ " bytes")), w).
Proof.
  unfold PublicKey.__init__.
  destruct (len public_key =? baselen_of (Generator.curve g)); [|reflexivity].
  destruct public_point as [P|]; [reflexivity|].
  unfold bind, from_bytes, ret. cbn [negb].
  destruct (decode (Generator.curve g) public_key); reflexivity.
Qed.

Lemma verify_eq (data signature : bytes) (pk : PublicKey.t) (w : World) :
  PublicKey.verify data signature (pk, w)
  = if len signature =? 2 * PublicKey.baselen pk then
      match decode (PublicKey.curve pk)
                   (slice_to signature (PublicKey.baselen pk)) with
      | None => (Raise InvalidEncodedPoint, (pk, w ++ [EvDecode]))
      | Some R =>
          let S := bytes_to_int (slice_from signature (PublicKey.baselen pk)) in
          if S >=? Generator.order (PublicKey.generator pk) then
            (Raise (ValueError "Invalid signature"), (pk, w ++ [EvDecode]))
          else
            let k := bytes_to_int
                       (CurveEdTw.hash_func (PublicKey.curve pk)
                          (dom_of (PublicKey.curve pk) ++ encode R
                           ++ PublicKey.__encoded pk ++ data)) in
            let w' := w ++ [EvDecode; EvEncode; EvHash; EvScalarMul;
                            EvScalarMul; EvPointAdd; EvPointEqual] in
            if point_equal
                 (scalar_mul (Generator.element (PublicKey.generator pk)) S)
                 (point_add (scalar_mul (PublicKey.__point pk) k) R)
            then (Return true, (pk, w'))
            else (Raise (ValueError "Invalid signature"), (pk, w'))
      end
    else
      (Raise (ValueError ("Invalid signature length, expected: "
                          ++ format_int (2 * PublicKey.baselen pk)
                          ++ " bytes")), (pk, w)).
Proof.
  unfold PublicKey.verify, bind, self, compat26_str. cbn [fst snd].
  destruct (len signature =? 2 * PublicKey.baselen pk); [|reflexivity].
  cbn [negb]. unfold extern, from_bytes. cbn [fst snd].
  destruct (decode _ _) as [R|]; [|reflexivity].
  cbv zeta.
  destruct (_ >=? _); [reflexivity|].
  unfold to_bytes, hash, mul, add, ne, emit, ret, raise. cbn [fst snd].
  rewrite <- !app_assoc. cbn [app].
  destruct (point_equal _ _); reflexivity.
Qed.

Lemma PrivateKey_init_eq (g : Generator.t) (private_key : bytes) (w : World) :
  PrivateKey.__init__ g private_key w
  = if len private_key =? baselen_of (Generator.curve g) then
      let h := CurveEdTw.hash_func (Generator.curve g) private_key in
      match PrivateKey._key_prune (Generator.curve g)
              (slice_to h (baselen_of (Generator.curve g))) with
      | Return a =>
          (Return (PrivateKey.Build g (Generator.curve g)
                     (baselen_of (Generator.curve g)) private_key h None
                     (bytes_to_int a)), w ++ [EvHash])
      | Raise e => (Raise e, w ++ [EvHash])
      end
    else
      (Raise (ValueError ("Incorrect size of private key, expected: "
                          ++ format_int (baselen_of (Generator.curve g))
                          ++ " bytes")), w).
Proof.
  unfold PrivateKey.__init__.
  destruct (len private_key =? baselen_of (Generator.curve g)); [|reflexivity].
  cbn [negb]. unfold bind, hash, emit, lift_result, ret. cbv zeta.
  destruct (PrivateKey._key_prune _ _); reflexivity.
Qed.

Lemma public_key_cached (sk : PrivateKey.t) (pk : PublicKey.t) (w : World) :
  PrivateKey.__public_key sk = Some pk ->
  PrivateKey.public_key (sk, w) = (Return pk, (sk, w)).
Proof.
  intros Hc. unfold PrivateKey.public_key, bind, self. cbn [fst snd].
  rewrite Hc. reflexivity.
Qed.

Lemma public_key_fresh (sk : PrivateKey.t) (w : World) :
  PrivateKey.__public_key sk = None ->
  let g := PrivateKey.generator sk in
  let P := scalar_mul (Generator.element g) (PrivateKey.__s sk) in
  PrivateKey.public_key (sk, w)
  = if len (encode P) =? baselen_of (Generator.curve g) then
      let pk := PublicKey.Build g (Generator.curve g) (encode P)
                  (baselen_of (Generator.curve g)) P in
      (Return pk, (PrivateKey.set_public_key sk pk,
                   w ++ [EvScalarMul; EvEncode]))
    else
      (Raise (ValueError ("Incorrect size of the public key, expected: "
                          ++ format_int (baselen_of (Generator.curve g))
                          ++ " bytes")), (sk, w ++ [EvScalarMul; EvEncode])).
Proof.
  intros Hc g P. unfold PrivateKey.public_key, bind, self. cbn [fst snd].
  rewrite Hc. unfold extern, mul, to_bytes, emit. cbn [fst snd].
  rewrite PublicKey_init_eq. fold g P.
  rewrite <- !app_assoc. cbn [app].
  destruct (len (encode P) =? baselen_of (Generator.curve g)); reflexivity.
Qed.

(** What [sign] does once the public key is at hand. *)
Lemma sign_eq (data : bytes) (sk : PrivateKey.t) (w : World) :
  PrivateKey.sign data (sk, w)
  = match PrivateKey.public_key (sk, w) with
    | (Raise e, st) => (Raise e, st)
    | (Return pk, (sk', w')) =>
        let g := PrivateKey.generator sk' in
        let c := PrivateKey.curve sk' in
        let r := bytes_to_int
                   (CurveEdTw.hash_func c
                      (dom_of c
                       ++ slice_from (PrivateKey.__h sk') (PrivateKey.baselen sk')
                       ++ data)) in
        let R := encode (scalar_mul (Generator.element g) r) in
        let k := bytes_to_int
                   (CurveEdTw.hash_func c
                      (dom_of c ++ R ++ PublicKey.public_key pk ++ data)) in
        let w'' := w' ++ [EvHash; EvScalarMul; EvEncode; EvHash] in
        match py_mod k (Generator.order g) with
        | Raise e => (Raise e, (sk', w''))
        | Return k' =>
            match py_mod (r + k' * PrivateKey.__s sk') (Generator.order g) with
            | Raise e => (Raise e, (sk', w''))
            | Return S' =>
                (Return (R ++ int_to_bytes S' (PrivateKey.baselen sk')),
                 (sk', w''))
            end
        end
    end.
Proof.
  unfold PrivateKey.sign, compat26_str. unfold bind at 1.
  destruct (PrivateKey.public_key (sk, w)) as [[pk|e] [sk' w']]; [|reflexivity].
  unfold bind, self, extern, hash, mul, to_bytes, emit, lift_result, ret.
  cbn [fst snd]. rewrite <- !app_assoc. cbn [app]. cbv zeta.
  destruct (py_mod _ _) as [k'|e]; [|reflexivity].
  destruct (py_mod _ _) as [S'|e]; reflexivity.
Qed.

Lemma key_prune_raises (c : CurveEdTw.t) (key : bytes) (e : exn) :
  PrivateKey._key_prune c key = Raise e ->
  e = ValueError "Only cofactor 4 and 8 curves supported"
  \/ e = ValueError "byte must be in range(0, 256)"
  \/ e = IndexError "bytearray index out of range".
Proof.
  assert (Hget : forall k i e', getitem k i = Raise e' ->
            e' = IndexError "bytearray index out of range").
  { intros k i e'. unfold getitem.
    destruct (py_index _ _); [destruct (k !! _)|]; congruence. }
  assert (Hset : forall k i v e', setitem k i v = Raise e' ->
            e' = ValueError "byte must be in range(0, 256)"
            \/ e' = IndexError "bytearray index out of range").
  { intros k i v e'. unfold setitem.
    destruct (py_index _ _); [destruct (_ && _)|]; intros [= <-]; auto. }
  unfold PrivateKey._key_prune.
  destruct (CurveEdTw.cofactor c =? 4);
    [|destruct (CurveEdTw.cofactor c =? 8); [|cbn [rbind]; intros [= <-]; auto]].
  all: cbn [rbind].
  all: destruct (getitem key 0) as [k0|e0] eqn:E0; cbn [rbind];
    [|intros [= <-]; apply Hget in E0; auto].
  all: destruct (setitem key 0 _) as [key1|e1] eqn:E1; cbn [rbind];
    [|intros [= <-]; apply Hset in E1; tauto].
  all: destruct (_ =? 0).
  all: repeat match goal with
       | |- context [rbind (getitem ?k ?i) _] =>
           let E := fresh "E" in
           destruct (getitem k i) eqn:E; cbn [rbind];
           [|intros [= <-]; apply Hget in E; auto]
       | |- context [rbind (setitem ?k ?i ?v) _] =>
           let E := fresh "E" in
           destruct (setitem k i v) eqn:E; cbn [rbind];
           [|intros [= <-]; apply Hset in E; tauto]
       end.
  all: discriminate.
Qed.

(** C10. [verify] hands back [True] and nothing else when it returns; when it
    does not return it raises; either way the key it was called on is the
    key it leaves behind, and the trace only grows. *)
Theorem verify_returns_True_and_keeps_self
    (data signature : bytes) (pk : PublicKey.t) (w : World) :
  exists r evs,
    PublicKey.verify data signature (pk, w) = (r, (pk, w ++ evs))
    /\ (r = Return true \/ exists e, r = Raise e).
Proof.
  rewrite verify_eq.
  destruct (len signature =? _);
    [|exists (Raise (ValueError
         ("Invalid signature length, expected: "
          ++ format_int (2 * PublicKey.baselen pk) ++ " bytes"))), [];
      rewrite app_nil_r; eauto].
  destruct (decode _ _) as [R|]; [|eauto 6].
  cbv zeta. destruct (_ >=? _); [eauto 6|].
  destruct (point_equal _ _); eauto 6.
Qed.

(** C6. Length validation at the public interface: a key of any other
    length than [baselen] (32 on ed25519, 57 on ed448) is refused with the
    key-length [ValueError], and only such a key; a signature is refused
    with the signature-length [ValueError] exactly when it is not
    [2 * baselen] long. *)
Theorem length_validation (g : Generator.t) (x : bytes)
    (public_point : option point) (pk : PublicKey.t)
    (data signature : bytes) (w : World) :
  ((exists w', PrivateKey.__init__ g x w
      = (Raise (ValueError ("Incorrect size of private key, expected: "
                            ++ format_int (baselen_of (Generator.curve g))
                            ++ " bytes")), w'))
   <-> len x <> baselen_of (Generator.curve g))
  /\ ((exists w', PublicKey.__init__ g x public_point w
      = (Raise (ValueError ("Incorrect size of the public key, expected: "
                            ++ format_int (baselen_of (Generator.curve g))
                            ++ " bytes")), w'))
   <-> len x <> baselen_of (Generator.curve g))
  /\ ((exists st, PublicKey.verify data signature (pk, w)
      = (Raise (ValueError ("Invalid signature length, expected: "
                            ++ format_int (2 * PublicKey.baselen pk)
                            ++ " bytes")), st))
   <-> len signature <> 2 * PublicKey.baselen pk)
  /\ baselen_of curve_ed25519 = 32
  /\ baselen_of curve_ed448 = 57.
Proof.
  repeat split; try (vm_compute; reflexivity).
  - intros [w' Hr] Hlen. rewrite PrivateKey_init_eq in Hr.
    apply Z.eqb_eq in Hlen. rewrite Hlen in Hr. cbv zeta in Hr.
    destruct (PrivateKey._key_prune _ _) as [a|e] eqn:E; [discriminate|].
    injection Hr as He _. subst e.
    apply key_prune_raises in E. cbn in E.
    destruct E as [E | [E | E]]; discriminate.
  - intros Hlen. rewrite PrivateKey_init_eq.
    apply Z.eqb_neq in Hlen. rewrite Hlen. eauto.
  - intros [w' Hr] Hlen. rewrite PublicKey_init_eq in Hr.
    apply Z.eqb_eq in Hlen. rewrite Hlen in Hr.
    destruct public_point; [discriminate|].
    destruct (decode _ _); discriminate.
  - intros Hlen. rewrite PublicKey_init_eq.
    apply Z.eqb_neq in Hlen. rewrite Hlen. eauto.
  - intros [st Hr] Hlen. rewrite verify_eq in Hr.
    apply Z.eqb_eq in Hlen. rewrite Hlen in Hr.
    destruct (decode _ _); [|discriminate]. cbv zeta in Hr.
    destruct (_ >=? _); [cbn in Hr; discriminate|].
    destruct (point_equal _ _); [discriminate|cbn in Hr; discriminate].
  - intros Hlen. rewrite verify_eq.
    apply Z.eqb_neq in Hlen. rewrite Hlen. eauto.
Qed.

Lemma PublicKey_init_fields (g : Generator.t) (e : bytes)
    (p : option point) (w w' : World) (k : PublicKey.t) :
  PublicKey.__init__ g e p w = (Return k, w') ->
  PublicKey.generator k = g
  /\ PublicKey.curve k = Generator.curve g
  /\ PublicKey.__encoded k = e
  /\ PublicKey.baselen k = baselen_of (Generator.curve g)
  /\ len e = baselen_of (Generator.curve g).
Proof.
  rewrite PublicKey_init_eq.
  destruct (Z.eqb_spec (len e) (baselen_of (Generator.curve g)));
    [|discriminate].
  destruct p; [|destruct (decode _ _)]; intros [= <- _]; auto.
Qed.

(** C7. Two public keys are equal exactly when their curve descriptors are
    equal and their encodings are the same bytes; the decoded points play
    no part; a key built under ed25519 never equals one built under
    ed448. *)
Theorem public_key_equality :
  (forall k1 k2 : PublicKey.t,
     PublicKey.__eq__ k1 k2 = true
     <-> CurveEdTw.__eq__ (PublicKey.curve k1) (PublicKey.curve k2) = true
         /\ PublicKey.__encoded k1 = PublicKey.__encoded k2)
  /\ (forall g1 c1 e1 b1 g2 c2 e2 b2 (P1 P2 Q1 Q2 : point),
     PublicKey.__eq__ (PublicKey.Build g1 c1 e1 b1 P1)
                      (PublicKey.Build g2 c2 e2 b2 P2)
     = PublicKey.__eq__ (PublicKey.Build g1 c1 e1 b1 Q1)
                        (PublicKey.Build g2 c2 e2 b2 Q2))
  /\ (forall e1 e2 p1 p2 w1 w2 k1 k2 w1' w2',
     PublicKey.__init__ generator_ed25519 e1 p1 w1 = (Return k1, w1') ->
     PublicKey.__init__ generator_ed448 e2 p2 w2 = (Return k2, w2') ->
     PublicKey.__eq__ k1 k2 = false /\ PublicKey.__eq__ k2 k1 = false)
  /\ (forall g1 g2 e b1 b2 (P1 P2 : point),
     PublicKey.__eq__ (PublicKey.Build g1 curve_ed25519 e b1 P1)
                      (PublicKey.Build g2 curve_ed448 e b2 P2) = false).
Proof.
  split; [|split; [|split]]; [| | |reflexivity].
  - intros k1 k2. unfold PublicKey.__eq__.
    rewrite andb_true_iff, bool_decide_eq_true. reflexivity.
  - reflexivity.
  - intros e1 e2 p1 p2 w1 w2 k1 k2 w1' w2' H1 H2.
    apply PublicKey_init_fields in H1 as (_ & C1 & _).
    apply PublicKey_init_fields in H2 as (_ & C2 & _).
    unfold PublicKey.__eq__. rewrite C1, C2. split; reflexivity.
Qed.

(** C3, as the code has it. A signature of the right length is first
    decoded: when its first half is not a point the failure is the
    engine's, whatever [S] is. When it is a point and [S >= order],
    [verify] raises [ValueError("Invalid signature")] with the decoding as
    the only engine call made: no hash, no encoding and no group
    operation. [S = order - 1] passes the check, and the equation is
    evaluated. *)
Theorem verify_rejects_large_S
    (data signature : bytes) (pk : PublicKey.t) (w : World) :
  len signature = 2 * PublicKey.baselen pk ->
  (decode (PublicKey.curve pk) (slice_to signature (PublicKey.baselen pk))
   = None ->
   PublicKey.verify data signature (pk, w)
   = (Raise InvalidEncodedPoint, (pk, w ++ [EvDecode])))
  /\ (forall R,
      decode (PublicKey.curve pk) (slice_to signature (PublicKey.baselen pk))
      = Some R ->
      (bytes_to_int (slice_from signature (PublicKey.baselen pk))
       >= Generator.order (PublicKey.generator pk) ->
       PublicKey.verify data signature (pk, w)
       = (Raise (ValueError "Invalid signature"), (pk, w ++ [EvDecode])))
      /\ (bytes_to_int (slice_from signature (PublicKey.baselen pk))
          = Generator.order (PublicKey.generator pk) - 1 ->
          exists r,
            PublicKey.verify data signature (pk, w)
            = (r, (pk, w ++ [EvDecode; EvEncode; EvHash; EvScalarMul;
                             EvScalarMul; EvPointAdd; EvPointEqual])))).
Proof.
  intros Hlen. rewrite verify_eq. apply Z.eqb_eq in Hlen. rewrite Hlen.
  split; [intros ->; reflexivity|].
  intros R ->. cbv zeta. split; intros HS.
  - apply Z.geb_ge in HS. rewrite HS. reflexivity.
  - rewrite HS.
    destruct (Z.geb_spec (Generator.order (PublicKey.generator pk) - 1)
                         (Generator.order (PublicKey.generator pk))); [lia|].
    destruct (point_equal _ _); eauto.
Qed.

(** C5, as the code has it. The two value-level failures of [verify] are
    one and the same exception: [S] not below the order and an equation
    that does not hold both raise [ValueError("Invalid signature")]. *)
Theorem verify_value_failures_coincide
    (data signature : bytes) (pk : PublicKey.t) (w : World) (R : point) :
  len signature = 2 * PublicKey.baselen pk ->
  decode (PublicKey.curve pk) (slice_to signature (PublicKey.baselen pk))
  = Some R ->
  (bytes_to_int (slice_from signature (PublicKey.baselen pk))
   >= Generator.order (PublicKey.generator pk) ->
   fst (PublicKey.verify data signature (pk, w))
   = Raise (ValueError "Invalid signature"))
  /\ (bytes_to_int (slice_from signature (PublicKey.baselen pk))
      < Generator.order (PublicKey.generator pk) ->
      point_equal
        (scalar_mul (Generator.element (PublicKey.generator pk))
           (bytes_to_int (slice_from signature (PublicKey.baselen pk))))
        (point_add
           (scalar_mul (PublicKey.__point pk)
              (bytes_to_int
                 (CurveEdTw.hash_func (PublicKey.curve pk)
                    (dom_of (PublicKey.curve pk) ++ encode R
                     ++ PublicKey.__encoded pk ++ data))))
           R) = false ->
      fst (PublicKey.verify data signature (pk, w))
      = Raise (ValueError "Invalid signature")).
Proof.
  intros Hlen HR. rewrite verify_eq. apply Z.eqb_eq in Hlen.
  rewrite Hlen, HR. cbv zeta. split.
  - intros HS. apply Z.geb_ge in HS. rewrite HS. reflexivity.
  - intros HS Hneq.
    destruct (Z.geb_spec
                (bytes_to_int (slice_from signature (PublicKey.baselen pk)))
                (Generator.order (PublicKey.generator pk))); [lia|].
    rewrite Hneq. reflexivity.
Qed.

(** C8. [public_key()] is memoized. On a freshly built key whose public
    point encodes to the curve's length, the first call makes one scalar
    multiplication and one encoding, no decoding, builds the [PublicKey]
    from the encoding and the point, and stores it; the other attributes
    stay as they were. In the state it leaves, every call returns the
    same [PublicKey], equal to itself under [==], with no engine call and
    no change to the key. *)
Theorem public_key_memoized
    (g : Generator.t) (seed : bytes) (w0 w1 w : World) (sk : PrivateKey.t) :
  PrivateKey.__init__ g seed w0 = (Return sk, w1) ->
  len (encode (scalar_mul (Generator.element g) (PrivateKey.__s sk)))
  = baselen_of (Generator.curve g) ->
  exists pk sk',
    PrivateKey.public_key (sk, w)
    = (Return pk, (sk', w ++ [EvScalarMul; EvEncode]))
    /\ pk = PublicKey.Build g (Generator.curve g)
              (encode (scalar_mul (Generator.element g) (PrivateKey.__s sk)))
              (baselen_of (Generator.curve g))
              (scalar_mul (Generator.element g) (PrivateKey.__s sk))
    /\ PrivateKey.__public_key sk' = Some pk
    /\ (PrivateKey.generator sk' = PrivateKey.generator sk
        /\ PrivateKey.curve sk' = PrivateKey.curve sk
        /\ PrivateKey.baselen sk' = PrivateKey.baselen sk
        /\ PrivateKey.__private_key sk' = PrivateKey.__private_key sk
        /\ PrivateKey.__h sk' = PrivateKey.__h sk
        /\ PrivateKey.__s sk' = PrivateKey.__s sk)
    /\ (forall w', PrivateKey.public_key (sk', w') = (Return pk, (sk', w')))
    /\ PublicKey.__eq__ pk pk = true.
Proof.
  intros Hinit Henc. rewrite PrivateKey_init_eq in Hinit.
  destruct (len seed =? _); [|discriminate]. cbv zeta in Hinit.
  destruct (PrivateKey._key_prune _ _) as [a|e]; [|discriminate].
  injection Hinit as <- _.
  rewrite public_key_fresh by reflexivity. cbn [PrivateKey.generator PrivateKey.__s] in *.
  cbv zeta. apply Z.eqb_eq in Henc. rewrite Henc.
  do 2 eexists. split; [reflexivity|].
  split; [reflexivity|]. split; [reflexivity|].
  split; [repeat split|]. split.
  - intros w'. apply public_key_cached. reflexivity.
  - unfold PublicKey.__eq__, CurveEdTw.__eq__. cbn [PublicKey.curve PublicKey.__encoded].
    rewrite !Z.eqb_refl, bool_decide_eq_true_2; reflexivity.
Qed.

(** ** Determinism of [sign] *)

Lemma init_deterministic (g : Generator.t) (seed : bytes)
    (w1 w1' w2 w2' : World) (a b : PrivateKey.t) :
  PrivateKey.__init__ g seed w1 = (Return a, w1') ->
  PrivateKey.__init__ g seed w2 = (Return b, w2') ->
  a = b /\ PrivateKey.__public_key a = None.
Proof.
  rewrite !PrivateKey_init_eq.
  destruct (len seed =? _); [|discriminate]. cbv zeta.
  destruct (PrivateKey._key_prune _ _); [|discriminate].
  intros [= <- _] [= <- _]. split; reflexivity.
Qed.

Lemma public_key_invariant (sk0 sk sk' : PrivateKey.t) (w w' : World)
    (r : result PublicKey.t) :
  cache_invariant sk0 sk ->
  PrivateKey.public_key (sk, w) = (r, (sk', w')) ->
  cache_invariant sk0 sk'.
Proof.
  intros [Hnone [-> | [Hlen ->]]].
  - rewrite public_key_fresh by assumption. cbv zeta.
    fold (derived_public_key sk0).
    destruct (Z.eqb_spec
                (len (encode (scalar_mul
                                (Generator.element (PrivateKey.generator sk0))
                                (PrivateKey.__s sk0))))
                (baselen_of (Generator.curve (PrivateKey.generator sk0))))
      as [Hlen|Hlen]; intros [= _ <- _]; split; auto.
  - rewrite (public_key_cached _ (derived_public_key sk0)) by reflexivity.
    intros [= _ <- _]. split; auto.
Qed.

Lemma sign_keeps_public_key_state (data : bytes) (sk sk' : PrivateKey.t)
    (w w' : World) (r : result bytes) :
  PrivateKey.sign data (sk, w) = (r, (sk', w')) ->
  exists r0 w0, PrivateKey.public_key (sk, w) = (r0, (sk', w0)).
Proof.
  rewrite sign_eq.
  destruct (PrivateKey.public_key (sk, w)) as [[pk|e] [sk1 w1]].
  - cbv zeta. destruct (py_mod _ _); [destruct (py_mod _ _)|];
      intros [= _ <- _]; eauto.
  - intros [= _ <- _]. eauto.
Qed.

Lemma sign_from_invariant (data : bytes) (sk0 sk : PrivateKey.t)
    (w w0 : World) :
  cache_invariant sk0 sk ->
  fst (PrivateKey.sign data (sk, w)) = fst (PrivateKey.sign data (sk0, w0)).
Proof.
  intros [Hnone [-> | [Hlen ->]]]; rewrite !sign_eq.
  - rewrite !public_key_fresh by assumption. cbv zeta.
    destruct (_ =? _); [|reflexivity].
    destruct (py_mod _ _); [destruct (py_mod _ _)|]; reflexivity.
  - rewrite (public_key_cached _ (derived_public_key sk0)) by reflexivity.
    rewrite public_key_fresh by assumption. cbv zeta.
    fold (derived_public_key sk0).
    apply Z.eqb_eq in Hlen. cbn [derived_public_key PublicKey.__encoded] in Hlen.
    rewrite Hlen.
    cbn [PrivateKey.set_public_key PrivateKey.generator PrivateKey.curve
         PrivateKey.__h PrivateKey.baselen PrivateKey.__s].
    destruct (py_mod _ _); [destruct (py_mod _ _)|]; reflexivity.
Qed.

Lemma reachable_invariant (g : Generator.t) (seed : bytes)
    (sk : PrivateKey.t) :
  reachable g seed sk ->
  exists sk0 w w',
    PrivateKey.__init__ g seed w = (Return sk0, w')
    /\ cache_invariant sk0 sk.
Proof.
  induction 1 as [w sk w' Hinit
                 | sk w r sk' w' _ (sk0 & v & v' & Hinit & Hinv) Hcall
                 | sk data w r sk' w' _ (sk0 & v & v' & Hinit & Hinv) Hcall].
  - exists sk, w, w'. split; [assumption|].
    split; [|left; reflexivity].
    exact (proj2 (init_deterministic _ _ _ _ _ _ _ _ Hinit Hinit)).
  - exists sk0, v, v'. split; [assumption|].
    exact (public_key_invariant _ _ _ _ _ _ Hinv Hcall).
  - exists sk0, v, v'. split; [assumption|].
    apply sign_keeps_public_key_state in Hcall as (r0 & u & Hcall).
    exact (public_key_invariant _ _ _ _ _ _ Hinv Hcall).
Qed.

(** C2. [sign] is deterministic: on any two [PrivateKey]s built from the
    same generator and seed, in whatever state of their public-key cache
    and whatever calls were made before, [sign] of the same message gives
    the same result; nothing but the key and the message enters it. *)
Theorem sign_deterministic (g : Generator.t) (seed data : bytes)
    (sk1 sk2 : PrivateKey.t) (w1 w2 : World) :
  reachable g seed sk1 ->
  reachable g seed sk2 ->
  fst (PrivateKey.sign data (sk1, w1)) = fst (PrivateKey.sign data (sk2, w2)).
Proof.
  intros H1 H2.
  apply reachable_invariant in H1 as (a & u & u' & Ha & Hinv1).
  apply reachable_invariant in H2 as (b & v & v' & Hb & Hinv2).
  destruct (init_deterministic _ _ _ _ _ _ _ _ Ha Hb) as [<- _].
  rewrite (sign_from_invariant data a sk1 w1 []) by assumption.
  rewrite (sign_from_invariant data a sk2 w2 []) by assumption.
  reflexivity.
Qed.

(** ** Signing, then verifying *)

Section Roundtrip.
Variable g : Generator.t.
Hypothesis laws : engine_laws g.
Hypothesis order_range :
  0 < Generator.order g < 2 ^ (8 * baselen_of (Generator.curve g)).

Local Abbreviation G := (Generator.element g).
Local Abbreviation o := (Generator.order g).

Lemma mul_mod_order (n : Z) : 0 <= n -> scalar_mul G (n mod o) = scalar_mul G n.
Proof.
  intros Hn.
  assert (Hq : 0 <= n / o) by (apply Z.div_pos; lia).
  assert (Hm : 0 <= n mod o) by (apply Z.mod_pos_bound; lia).
  rewrite (Z.div_mod n o) at 2 by lia.
  rewrite (mul_add g laws) by lia.
  rewrite <- (mul_mul g laws) by lia.
  rewrite (mul_order g laws).
  rewrite (mul_mul g laws) by lia.
  rewrite <- (mul_add g laws) by lia.
  f_equal.
Qed.

Lemma signature_equation (r k s : Z) :
  0 <= r -> 0 <= k -> 0 <= s ->
  scalar_mul G ((r + k mod o * s) mod o)
  = point_add (scalar_mul (scalar_mul G s) k) (scalar_mul G r).
Proof.
  intros Hr Hk Hs.
  assert (Hm : 0 <= k mod o) by (apply Z.mod_pos_bound; lia).
  rewrite mul_mod_order by nia.
  rewrite (mul_mul g laws), <- (mul_add g laws) by nia.
  rewrite <- (mul_mod_order (r + k mod o * s)) by nia.
  rewrite <- (mul_mod_order (s * k + r)) by nia.
  f_equal.
  rewrite Z.add_mod, Z.mul_mod_idemp_l by lia.
  rewrite <- Z.add_mod by lia.
  f_equal. ring.
Qed.

Hypothesis prune_ok : forall key : bytes,
  len key = baselen_of (Generator.curve g) ->
  exists a, PrivateKey._key_prune (Generator.curve g) key = Return a.
Hypothesis hash_long : forall x : bytes,
  baselen_of (Generator.curve g) <= len (CurveEdTw.hash_func (Generator.curve g) x).

Lemma baselen_nonneg : 0 <= baselen_of (Generator.curve g).
Proof.
  destruct (Z.le_gt_cases 0 (baselen_of (Generator.curve g))) as [|Hneg];
    [assumption|].
  rewrite Z.pow_neg_r in order_range by lia. lia.
Qed.

Lemma slice_to_app (l1 l2 : bytes) (n : Z) :
  len l1 = n -> slice_to (l1 ++ l2) n = l1.
Proof.
  intros <-. unfold slice_to, len.
  destruct (Z.leb_spec 0 (Z.of_nat (length l1))); [|lia].
  rewrite Nat2Z.id. apply take_app_length.
Qed.

Lemma slice_from_app (l1 l2 : bytes) (n : Z) :
  len l1 = n -> slice_from (l1 ++ l2) n = l2.
Proof.
  intros <-. unfold slice_from, len.
  destruct (Z.leb_spec 0 (Z.of_nat (length l1))); [|lia].
  rewrite Nat2Z.id. apply drop_app_length.
Qed.

Lemma len_app (l1 l2 : bytes) : len (l1 ++ l2) = len l1 + len l2.
Proof. unfold len. rewrite length_app. lia. Qed.

Lemma len_slice_to (l : bytes) (n : Z) :
  0 <= n <= len l -> len (slice_to l n) = n.
Proof.
  intros Hn. unfold slice_to, len in *.
  destruct (Z.leb_spec 0 n); [|lia].
  rewrite length_take. lia.
Qed.

Lemma bind_step {S A B} (m : M S A) (k : A -> M S B) (st st' : S) (v : A) :
  m st = (Return v, st') -> bind m k st = k v st'.
Proof. intros Hm. unfold bind. rewrite Hm. reflexivity. Qed.

Lemma call_step {T A} (obj obj' : T) (m : M (T * World) A) (w w' : World) (v : A) :
  m (obj, w) = (Return v, (obj', w')) -> call obj m w = (Return (v, obj'), w').
Proof. intros Hm. unfold call. rewrite Hm. reflexivity. Qed.

Lemma init_accepts (seed : bytes) :
  len seed = baselen_of (Generator.curve g) ->
  exists sk,
    (forall v, PrivateKey.__init__ g seed v = (Return sk, v ++ [EvHash]))
    /\ PrivateKey.__public_key sk = None
    /\ PrivateKey.generator sk = g
    /\ PrivateKey.curve sk = Generator.curve g
    /\ PrivateKey.baselen sk = baselen_of (Generator.curve g)
    /\ 0 <= PrivateKey.__s sk.
Proof.
  intros Hseed. pose proof baselen_nonneg as HB.
  destruct (prune_ok (slice_to (CurveEdTw.hash_func (Generator.curve g) seed)
                               (baselen_of (Generator.curve g)))) as [a Ha].
  { apply len_slice_to. split; [assumption | apply hash_long]. }
  eexists. split.
  - intros v. rewrite PrivateKey_init_eq.
    apply Z.eqb_eq in Hseed. rewrite Hseed. cbv zeta. rewrite Ha. reflexivity.
  - repeat split. apply bytes_to_int_range.
Qed.

Lemma public_key_accepts (sk : PrivateKey.t) (w : World) :
  PrivateKey.__public_key sk = None ->
  PrivateKey.generator sk = g ->
  0 <= PrivateKey.__s sk ->
  PrivateKey.public_key (sk, w)
  = (Return (derived_public_key sk),
     (PrivateKey.set_public_key sk (derived_public_key sk),
      w ++ [EvScalarMul; EvEncode])).
Proof.
  intros Hnone Hg Hs. rewrite public_key_fresh by assumption. cbv zeta.
  rewrite Hg. rewrite (encode_length g laws), Z.eqb_refl by assumption.
  unfold derived_public_key. rewrite Hg. reflexivity.
Qed.

Lemma sign_accepts (message : bytes) (sk : PrivateKey.t) (w : World) :
  PrivateKey.__public_key sk = None ->
  PrivateKey.generator sk = g ->
  PrivateKey.curve sk = Generator.curve g ->
  PrivateKey.baselen sk = baselen_of (Generator.curve g) ->
  0 <= PrivateKey.__s sk ->
  exists r sk' w',
    0 <= r
    /\ PrivateKey.sign message (sk, w)
       = (Return
            (encode (scalar_mul G r)
             ++ int_to_bytes
                  ((r + bytes_to_int
                          (CurveEdTw.hash_func (Generator.curve g)
                             (dom_of (Generator.curve g)
                              ++ encode (scalar_mul G r)
                              ++ encode (scalar_mul G (PrivateKey.__s sk))
                              ++ message)) mod o
                        * PrivateKey.__s sk) mod o)
                  (baselen_of (Generator.curve g))),
          (sk', w')).
Proof.
  intros Hnone Hg Hc Hb Hs. rewrite sign_eq.
  rewrite (public_key_accepts sk w Hnone Hg Hs). cbv zeta.
  cbn [PrivateKey.set_public_key PrivateKey.generator PrivateKey.curve
       PrivateKey.__h PrivateKey.baselen PrivateKey.__s
       derived_public_key PublicKey.public_key PublicKey.__encoded].
  rewrite Hg, Hc, Hb. unfold py_mod.
  destruct (Z.eqb_spec o 0) as [Ho|_]; [lia|].
  do 3 eexists. split; [|reflexivity]. apply bytes_to_int_range.
Qed.

Lemma verify_accepts (message : bytes) (sk : PrivateKey.t) (r : Z) (w : World) :
  PrivateKey.generator sk = g ->
  0 <= PrivateKey.__s sk ->
  0 <= r ->
  exists w',
    PublicKey.verify message
      (encode (scalar_mul G r)
       ++ int_to_bytes
            ((r + bytes_to_int
                    (CurveEdTw.hash_func (Generator.curve g)
                       (dom_of (Generator.curve g)
                        ++ encode (scalar_mul G r)
                        ++ encode (scalar_mul G (PrivateKey.__s sk))
                        ++ message)) mod o
                  * PrivateKey.__s sk) mod o)
            (baselen_of (Generator.curve g)))
      (derived_public_key sk, w)
    = (Return true, (derived_public_key sk, w')).
Proof.
  intros Hg Hs Hr. pose proof baselen_nonneg as HB.
  set (k := bytes_to_int _).
  assert (Hk : 0 <= k) by apply bytes_to_int_range.
  set (S' := (r + k mod o * PrivateKey.__s sk) mod o).
  assert (HS : 0 <= S' < o) by (apply Z.mod_pos_bound; lia).
  rewrite verify_eq.
  cbn [derived_public_key PublicKey.baselen PublicKey.curve
       PublicKey.generator PublicKey.__encoded PublicKey.__point].
  rewrite Hg.
  assert (Hlen : len (encode (scalar_mul G r) ++ int_to_bytes S' (baselen_of (Generator.curve g)))
                 = 2 * baselen_of (Generator.curve g)).
  { rewrite len_app, (encode_length g laws), len_int_to_bytes by assumption.
    lia. }
  apply Z.eqb_eq in Hlen. rewrite Hlen.
  rewrite slice_to_app by (apply (encode_length g laws); assumption).
  rewrite slice_from_app by (apply (encode_length g laws); assumption).
  rewrite (decode_encode g laws) by assumption. cbv zeta.
  rewrite bytes_to_int_to_bytes by lia.
  destruct (Z.geb_spec S' o) as [|_]; [lia|].
  fold k. unfold S'. rewrite signature_equation by assumption.
  rewrite (point_equal_refl g laws). eauto.
Qed.

Lemma sign_then_verify_accepts (seed message : bytes) (w : World) :
  len seed = baselen_of (Generator.curve g) ->
  exists w', sign_then_verify g seed message w = (Return true, w').
Proof.
  intros Hseed.
  destruct (init_accepts seed Hseed) as (sk & Hinit & Hnone & Hg & Hc & Hb & Hs).
  unfold sign_then_verify.
  rewrite (bind_step _ _ _ _ _ (Hinit w)).
  rewrite (bind_step _ _ _ _ _
             (call_step _ _ _ _ _ _ (public_key_accepts sk _ Hnone Hg Hs))).
  rewrite (bind_step _ _ _ _ _ (Hinit _)).
  cbn [fst].
  match goal with |- context [bind _ _ ?v] => 
    destruct (sign_accepts message sk v Hnone Hg Hc Hb Hs)
      as (r & sk' & w1 & Hr & Hsign)
  end.
  rewrite (bind_step _ _ _ _ _ (call_step _ _ _ _ _ _ Hsign)).
  cbn [fst].
  destruct (verify_accepts message sk r w1 Hg Hs Hr) as (w2 & Hver).
  rewrite (bind_step _ _ _ _ _ (call_step _ _ _ _ _ _ Hver)).
  eexists. reflexivity.
Qed.
End Roundtrip.

(** C1. For every seed of the curve's length and every message, the empty
    one included, the signature made by a private key verifies under the
    public key derived from the same seed, on ed25519 and on ed448, as
    soon as the engine is a group engine for the two generators and the
    hashes return digests of their lengths. *)
Theorem sign_verify_roundtrip (seed message : bytes) (w : World) :
  hash_laws ->
  engine_laws generator_ed25519 ->
  engine_laws generator_ed448 ->
  (len seed = baselen_of curve_ed25519 ->
   exists w',
     sign_then_verify generator_ed25519 seed message w = (Return true, w'))
  /\ (len seed = baselen_of curve_ed448 ->
      exists w',
        sign_then_verify generator_ed448 seed message w = (Return true, w')).
Proof.
  intros Hhash L25519 L448. split; intros Hseed.
  - apply (sign_then_verify_accepts generator_ed25519 L25519); try assumption.
    + vm_compute. split; reflexivity.
    + intros key Hkey.
      destruct (scalar_ed25519 key Hkey) as (a & Ha & _). eauto.
    + intros x. change (CurveEdTw.hash_func _ x) with (sha512 x).
      rewrite (sha512_length Hhash). vm_compute. discriminate.
  - apply (sign_then_verify_accepts generator_ed448 L448); try assumption.
    + vm_compute. split; reflexivity.
    + intros key Hkey.
      destruct (scalar_ed448 key Hkey) as (a & Ha & _). eauto.
    + intros x. change (CurveEdTw.hash_func _ x) with (shake_256 x 114).
      rewrite (shake_256_length Hhash) by lia. vm_compute. discriminate.
Qed.
End Methods.


(** ** More on key pruning: short keys, other cofactors, the bytes left alone *)

Lemma getitem_first (key : bytes) (b : byte) :
  key !! 0%nat = Some b -> getitem key 0 = Return (byte_val b).
Proof.
  intros Hb. apply (getitem_at key 0 0 b); [|exact Hb].
  apply lookup_lt_Some in Hb. unfold py_index.
  destruct (Z.ltb_spec 0 (Z.of_nat (length key))); [reflexivity | lia].
Qed.

Lemma py_index_from_end (n k : nat) :
  (0 < k <= n)%nat -> py_index n (- Z.of_nat k) = Some (n - k)%nat.
Proof.
  intros Hk. unfold py_index.
  destruct (Z.leb_spec 0 (- Z.of_nat k)); [lia|].
  destruct (Z.leb_spec 0 (Z.of_nat n + - Z.of_nat k)); [|lia].
  f_equal. lia.
Qed.

Lemma py_index_first (n : nat) : (0 < n)%nat -> py_index n 0 = Some 0%nat.
Proof.
  intros Hn. unfold py_index.
  destruct (Z.ltb_spec 0 (Z.of_nat n)); [reflexivity | lia].
Qed.

Section PruneAnyLength.
Context `{HashPrimitives}.

Lemma key_prune_ed25519_any (key : bytes) (b0 : byte) :
  key !! 0%nat = Some b0 ->
  exists top,
    PrivateKey._key_prune curve_ed25519 key
    = Return (<[(length key - 1)%nat := top]>
                (<[0%nat := byte_of (Z.land (byte_val b0)
                                            (Z.lnot (Z.shiftl 1 3 - 1)))]> key)).
Proof.
  intros H0. pose proof (lookup_lt_Some _ _ _ H0) as Hpos.
  set (key1 := <[0%nat := byte_of (Z.land (byte_val b0)
                                          (Z.lnot (Z.shiftl 1 3 - 1)))]> key).
  assert (Hlen1 : length key1 = length key) by apply length_insert.
  destruct (lookup_lt_is_Some_2 key1 (length key - 1)) as [b1 H1]; [lia|].
  unfold PrivateKey._key_prune.
  change (CurveEdTw.cofactor curve_ed25519) with 8.
  change (bit_length (CurveEdTw.p curve_ed25519)) with 255.
  change (8 =? 4) with false. change (8 =? 8) with true.
  change (255 mod 8) with 7. change (7 =? 0) with false.
  cbv beta iota.
  rewrite (getitem_first key b0 H0). cbn [rbind].
  rewrite (setitem_at key 0 0);
    [| apply py_index_first; lia | apply clear_low_bits].
  fold key1. cbn [rbind].
  rewrite (getitem_at key1 (-1) (length key - 1) b1);
    [| rewrite Hlen1; apply (py_index_from_end _ 1); lia | exact H1].
  cbn [rbind].
  rewrite (setitem_at key1 (-1) (length key - 1));
    [| rewrite Hlen1; apply (py_index_from_end _ 1); lia
     | pose proof (fix_top_bit_25519 b1); lia].
  eexists. reflexivity.
Qed.

Lemma key_prune_ed448_any (key : bytes) (b0 : byte) :
  key !! 0%nat = Some b0 -> (2 <= length key)%nat ->
  exists top,
    PrivateKey._key_prune curve_ed448 key
    = Return (<[(length key - 2)%nat := top]>
                (<[(length key - 1)%nat := byte_of 0]>
                   (<[0%nat := byte_of (Z.land (byte_val b0)
                                               (Z.lnot (Z.shiftl 1 2 - 1)))]> key))).
Proof.
  intros H0 Hlen.
  set (key1 := <[0%nat := byte_of (Z.land (byte_val b0)
                                          (Z.lnot (Z.shiftl 1 2 - 1)))]> key).
  assert (Hlen1 : length key1 = length key) by apply length_insert.
  set (key2 := <[(length key - 1)%nat := byte_of 0]> key1).
  assert (Hlen2 : length key2 = length key)
    by (unfold key2; rewrite length_insert; exact Hlen1).
  destruct (lookup_lt_is_Some_2 key2 (length key - 2)) as [b2 H2]; [lia|].
  unfold PrivateKey._key_prune.
  change (CurveEdTw.cofactor curve_ed448) with 4.
  change (bit_length (CurveEdTw.p curve_ed448)) with 448.
  change (4 =? 4) with true.
  change (448 mod 8) with 0. change (0 =? 0) with true.
  cbv beta iota.
  rewrite (getitem_first key b0 H0). cbn [rbind].
  rewrite (setitem_at key 0 0);
    [| apply py_index_first; lia | apply clear_low_bits].
  fold key1. cbn [rbind].
  rewrite (setitem_at key1 (-1) (length key - 1));
    [| rewrite Hlen1; apply (py_index_from_end _ 1); lia | lia].
  fold key2. cbn [rbind].
  rewrite (getitem_at key2 (-2) (length key - 2) b2);
    [| rewrite Hlen2; apply (py_index_from_end _ 2); lia | exact H2].
  cbn [rbind].
  rewrite (setitem_at key2 (-2) (length key - 2));
    [| rewrite Hlen2; apply (py_index_from_end _ 2); lia
     | pose proof (set_high_bit b2); lia].
  eexists. reflexivity.
Qed.

Lemma key_prune_ed448_one (b : byte) :
  PrivateKey._key_prune curve_ed448 [b]
  = Raise (IndexError "bytearray index out of range").
Proof.
  unfold PrivateKey._key_prune.
  change (CurveEdTw.cofactor curve_ed448) with 4.
  change (bit_length (CurveEdTw.p curve_ed448)) with 448.
  change (4 =? 4) with true.
  change (448 mod 8) with 0. change (0 =? 0) with true.
  cbv beta iota.
  rewrite (getitem_first [b] b eq_refl). cbn [rbind].
  rewrite (setitem_at [b] 0 0); [| reflexivity | apply clear_low_bits].
  cbn [rbind]. reflexivity.
Qed.

(** X1. Which keys [_key_prune] takes: on ed25519 every key but the empty
    one, on ed448 every key of two bytes or more; the others end in
    [IndexError] at the first byte that is not there. *)
Theorem key_prune_short_keys (key : bytes) :
  ((exists key', PrivateKey._key_prune curve_ed25519 key = Return key')
   <-> key <> [])
  /\ (key = [] ->
      PrivateKey._key_prune curve_ed25519 key
      = Raise (IndexError "bytearray index out of range"))
  /\ ((exists key', PrivateKey._key_prune curve_ed448 key = Return key')
      <-> (2 <= length key)%nat)
  /\ ((length key < 2)%nat ->
      PrivateKey._key_prune curve_ed448 key
      = Raise (IndexError "bytearray index out of range")).
Proof.
  assert (E448 : (length key < 2)%nat ->
            PrivateKey._key_prune curve_ed448 key
            = Raise (IndexError "bytearray index out of range")).
  { destruct key as [|b [|b' key]]; cbn [length]; intros Hl; try lia.
    - reflexivity.
    - apply key_prune_ed448_one. }
  repeat split.
  - intros [key' Hp] ->. discriminate.
  - intros Hne. destruct key as [|b0 key]; [congruence|].
    destruct (key_prune_ed25519_any (b0 :: key) b0 eq_refl) as [top Hp]. eauto.
  - intros ->. reflexivity.
  - intros [key' Hp].
    destruct (Nat.le_gt_cases 2 (length key)) as [|Hl]; [assumption|].
    rewrite (E448 Hl) in Hp. discriminate.
  - intros Hl. destruct key as [|b0 key]; [cbn in Hl; lia|].
    destruct (key_prune_ed448_any (b0 :: key) b0 eq_refl Hl) as [top Hp]. eauto.
  - exact E448.
Qed.

(** X2. What [_key_prune] leaves alone: the pruned key is as long as the
    key, and differs from it at most in the first and the last byte on
    ed25519, in the first and the last two bytes on ed448. *)
Theorem key_prune_frame (key key' : bytes) :
  (PrivateKey._key_prune curve_ed25519 key = Return key' ->
   length key' = length key
   /\ forall i : nat, i <> 0%nat -> i <> (length key - 1)%nat ->
        key' !! i = key !! i)
  /\ (PrivateKey._key_prune curve_ed448 key = Return key' ->
      length key' = length key
      /\ forall i : nat, i <> 0%nat -> i <> (length key - 1)%nat ->
           i <> (length key - 2)%nat -> key' !! i = key !! i).
Proof.
  assert (Hnil : key !! 0%nat = None -> key = []).
  { intros Hn. apply lookup_ge_None in Hn. apply length_zero_iff_nil. lia. }
  split; intros Hp.
  - destruct (key !! 0%nat) as [b0|] eqn:H0;
      [|rewrite (Hnil eq_refl) in Hp; discriminate].
    destruct (key_prune_ed25519_any key b0 H0) as [top Hq].
    rewrite Hq in Hp. injection Hp as <-. split.
    + rewrite !length_insert. reflexivity.
    + intros i Hi0 Hi1. rewrite !list_lookup_insert_ne by congruence.
      reflexivity.
  - destruct (Nat.le_gt_cases 2 (length key)) as [Hl|Hl].
    + destruct (key !! 0%nat) as [b0|] eqn:H0;
        [|rewrite (Hnil eq_refl) in Hl; cbn in Hl; lia].
      destruct (key_prune_ed448_any key b0 H0 Hl) as [top Hq].
      rewrite Hq in Hp. injection Hp as <-. split.
      * rewrite !length_insert. reflexivity.
      * intros i Hi0 Hi1 Hi2. rewrite !list_lookup_insert_ne by congruence.
        reflexivity.
    + destruct key as [|b [|b' key]]; cbn [length] in Hl; try lia.
      * discriminate.
      * rewrite key_prune_ed448_one in Hp. discriminate.
Qed.
End PruneAnyLength.

(** ** More on the two classes *)

Section MoreMethods.
Context `{HashPrimitives} `{CurveEngine}.

Lemma key_prune_other_cofactor (c : CurveEdTw.t) (key : bytes) :
  CurveEdTw.cofactor c <> 4 -> CurveEdTw.cofactor c <> 8 ->
  PrivateKey._key_prune c key
  = Raise (ValueError "Only cofactor 4 and 8 curves supported").
Proof.
  intros H4 H8. unfold PrivateKey._key_prune.
  apply Z.eqb_neq in H4, H8. rewrite H4, H8. reflexivity.
Qed.

(** X3. A curve whose cofactor is neither 4 nor 8 is refused by
    [_key_prune] before any byte of the key is read, whatever the key;
    building a [PrivateKey] on such a curve from a seed of the right
    length raises that [ValueError] once the seed has been hashed. *)
Theorem unsupported_cofactor (g : Generator.t) (seed key : bytes) (w : World) :
  CurveEdTw.cofactor (Generator.curve g) <> 4 ->
  CurveEdTw.cofactor (Generator.curve g) <> 8 ->
  PrivateKey._key_prune (Generator.curve g) key
  = Raise (ValueError "Only cofactor 4 and 8 curves supported")
  /\ (len seed = baselen_of (Generator.curve g) ->
      PrivateKey.__init__ g seed w
      = (Raise (ValueError "Only cofactor 4 and 8 curves supported"),
         w ++ [EvHash])).
Proof.
  intros H4 H8. split; [apply key_prune_other_cofactor; assumption|].
  intros Hlen. rewrite PrivateKey_init_eq. apply Z.eqb_eq in Hlen.
  rewrite Hlen. cbv zeta.
  rewrite key_prune_other_cofactor by assumption. reflexivity.
Qed.

(** X4. The length checks come first: a key or a signature of the wrong
    length is refused before the hash or the engine is called at all, and
    nothing is left changed. *)
Theorem length_checks_come_first (g : Generator.t) (x : bytes)
    (public_point : option point) (pk : PublicKey.t)
    (data signature : bytes) (w : World) :
  (len x <> baselen_of (Generator.curve g) ->
   PrivateKey.__init__ g x w
   = (Raise (ValueError ("Incorrect size of private key, expected: "
                         ++ format_int (baselen_of (Generator.curve g))
                         ++ " bytes")), w)
   /\ PublicKey.__init__ g x public_point w
      = (Raise (ValueError ("Incorrect size of the public key, expected: "
                            ++ format_int (baselen_of (Generator.curve g))
                            ++ " bytes")), w))
  /\ (len signature <> 2 * PublicKey.baselen pk ->
      PublicKey.verify data signature (pk, w)
      = (Raise (ValueError ("Invalid signature length, expected: "
                            ++ format_int (2 * PublicKey.baselen pk)
                            ++ " bytes")), (pk, w))).
Proof.
  split.
  - intros Hlen. apply Z.eqb_neq in Hlen.
    rewrite PrivateKey_init_eq, PublicKey_init_eq, Hlen. split; reflexivity.
  - intros Hlen. apply Z.eqb_neq in Hlen. rewrite verify_eq, Hlen. reflexivity.
Qed.

(** X5. [verify] returns [True] exactly when the signature has the right
    length, its first half decodes to a point [R], its second half is an
    [S] below the order, and the engine finds [generator * S] equal to
    [point * k + R], [k] being the hash of the domain prefix, the encoding
    of [R], the key's bytes and the message. *)
Theorem verify_accepts_iff
    (data signature : bytes) (pk : PublicKey.t) (w : World) :
  fst (PublicKey.verify data signature (pk, w)) = Return true
  <-> len signature = 2 * PublicKey.baselen pk
      /\ exists R,
           decode (PublicKey.curve pk)
                  (slice_to signature (PublicKey.baselen pk)) = Some R
           /\ bytes_to_int (slice_from signature (PublicKey.baselen pk))
              < Generator.order (PublicKey.generator pk)
           /\ point_equal
                (scalar_mul (Generator.element (PublicKey.generator pk))
                   (bytes_to_int
                      (slice_from signature (PublicKey.baselen pk))))
                (point_add
                   (scalar_mul (PublicKey.__point pk)
                      (bytes_to_int
                         (CurveEdTw.hash_func (PublicKey.curve pk)
                            (dom_of (PublicKey.curve pk) ++ encode R
                             ++ PublicKey.__encoded pk ++ data))))
                   R) = true.
Proof.
  rewrite verify_eq.
  destruct (Z.eqb_spec (len signature) (2 * PublicKey.baselen pk)) as [Hlen|Hlen].
  - destruct (decode _ _) as [R|].
    + cbv zeta.
      destruct (Z.geb_spec
                  (bytes_to_int (slice_from signature (PublicKey.baselen pk)))
                  (Generator.order (PublicKey.generator pk))) as [HS|HS].
      * split; [discriminate|]. intros (_ & R' & [= <-] & Hlt & _). lia.
      * destruct (point_equal _ _) eqn:Heq.
        -- split; [|reflexivity]. intros _. split; [assumption|].
           exists R. auto.
        -- split; [discriminate|].
           intros (_ & R' & [= <-] & _ & Heq'). congruence.
    + split; [discriminate|]. intros (_ & R & HR & _). discriminate.
  - split; [discriminate|]. intros [Hlen' _]. contradiction.
Qed.

(** X6. What a [PublicKey] holds once built: [public_key()] gives back the
    bytes it was built from, of the curve's length; a point that was
    supplied is stored as it is and the engine is not called; without one,
    the stored point is the decoding of the bytes, made once. *)
Theorem public_key_getters (g : Generator.t) (encoded : bytes)
    (public_point : option point) (w w' : World) (k : PublicKey.t) :
  PublicKey.__init__ g encoded public_point w = (Return k, w') ->
  PublicKey.public_key k = encoded
  /\ len encoded = PublicKey.baselen k
  /\ PublicKey.baselen k = baselen_of (Generator.curve g)
  /\ match public_point with
     | Some P => PublicKey.public_point k = P /\ w' = w
     | None =>
         decode (Generator.curve g) encoded = Some (PublicKey.public_point k)
         /\ w' = w ++ [EvDecode]
     end.
Proof.
  rewrite PublicKey_init_eq.
  destruct (Z.eqb_spec (len encoded) (baselen_of (Generator.curve g)));
    [|discriminate].
  destruct public_point as [P|].
  - intros [= <- <-]. auto.
  - destruct (decode _ _) as [P|]; [|discriminate].
    intros [= <- <-]. auto.
Qed.

(** *** The attributes of a [PrivateKey] over its life *)

Lemma PrivateKey_init_fields (g : Generator.t) (seed : bytes)
    (w w' : World) (sk : PrivateKey.t) :
  PrivateKey.__init__ g seed w = (Return sk, w') ->
  len seed = baselen_of (Generator.curve g)
  /\ w' = w ++ [EvHash]
  /\ exists a,
       PrivateKey._key_prune (Generator.curve g)
         (slice_to (CurveEdTw.hash_func (Generator.curve g) seed)
                   (baselen_of (Generator.curve g))) = Return a
       /\ sk = PrivateKey.Build g (Generator.curve g)
                 (baselen_of (Generator.curve g)) seed
                 (CurveEdTw.hash_func (Generator.curve g) seed) None
                 (bytes_to_int a).
Proof.
  rewrite PrivateKey_init_eq.
  destruct (Z.eqb_spec (len seed) (baselen_of (Generator.curve g)));
    [|discriminate].
  cbv zeta. destruct (PrivateKey._key_prune _ _) as [a|err]; [|discriminate].
  intros [= <- <-]. eauto.
Qed.

Lemma reachable_fields (g : Generator.t) (seed : bytes) (sk : PrivateKey.t) :
  reachable g seed sk ->
  PrivateKey.generator sk = g
  /\ PrivateKey.curve sk = Generator.curve g
  /\ PrivateKey.baselen sk = baselen_of (Generator.curve g)
  /\ PrivateKey.__private_key sk = seed
  /\ PrivateKey.__h sk = CurveEdTw.hash_func (Generator.curve g) seed
  /\ len seed = baselen_of (Generator.curve g)
  /\ exists a,
       PrivateKey._key_prune (Generator.curve g)
         (slice_to (CurveEdTw.hash_func (Generator.curve g) seed)
                   (baselen_of (Generator.curve g))) = Return a
       /\ PrivateKey.__s sk = bytes_to_int a.
Proof.
  intros Hr. apply reachable_invariant in Hr as (sk0 & w & w' & Hinit & Hinv).
  apply PrivateKey_init_fields in Hinit as (Hlen & _ & a & Ha & ->).
  destruct Hinv as [_ [-> | [_ ->]]];
    cbn [PrivateKey.set_public_key PrivateKey.generator PrivateKey.curve
         PrivateKey.baselen PrivateKey.__private_key PrivateKey.__h
         PrivateKey.__s]; eauto 10.
Qed.

(** X7. A [PrivateKey] keeps what it was built with: after any calls of
    [public_key()] and [sign()], [private_key] is still the seed, the
    generator, curve and length are those of the construction, the stored
    hash is the hash of the seed and the scalar is its pruned first half. *)
Theorem private_key_attributes_stable
    (g : Generator.t) (seed : bytes) (sk : PrivateKey.t) :
  reachable g seed sk ->
  PrivateKey.private_key sk = seed
  /\ PrivateKey.generator sk = g
  /\ PrivateKey.curve sk = Generator.curve g
  /\ PrivateKey.baselen sk = len seed
  /\ PrivateKey.__h sk = CurveEdTw.hash_func (PrivateKey.curve sk) seed
  /\ exists a,
       PrivateKey._key_prune (PrivateKey.curve sk)
         (slice_to (PrivateKey.__h sk) (PrivateKey.baselen sk)) = Return a
       /\ PrivateKey.__s sk = bytes_to_int a.
Proof.
  intros Hr.
  destruct (reachable_fields g seed sk Hr)
    as (Hg & Hc & Hb & Hk & Hh & Hlen & a & Ha & Hs).
  unfold PrivateKey.private_key. rewrite Hc, Hb, Hh.
  repeat split; try assumption; try congruence. eauto.
Qed.

(** X8. Two [PrivateKey]s on the same generator are equal under [==]
    exactly when they were built from the same seed, and unequal under
    [!=] exactly when the seeds differ, whatever was called on them since:
    the stored public key plays no part. *)
Theorem private_key_equality (g : Generator.t) (seed1 seed2 : bytes)
    (sk1 sk2 : PrivateKey.t) :
  reachable g seed1 sk1 ->
  reachable g seed2 sk2 ->
  (PrivateKey.__eq__ sk1 sk2 = true <-> seed1 = seed2)
  /\ (PrivateKey.__ne__ sk1 sk2 = true <-> seed1 <> seed2).
Proof.
  intros H1 H2.
  destruct (reachable_fields g seed1 sk1 H1) as (_ & C1 & _ & K1 & _).
  destruct (reachable_fields g seed2 sk2 H2) as (_ & C2 & _ & K2 & _).
  assert (Heq : PrivateKey.__eq__ sk1 sk2 = bool_decide (seed1 = seed2)).
  { unfold PrivateKey.__eq__, CurveEdTw.__eq__.
    rewrite C1, C2, K1, K2, !Z.eqb_refl. reflexivity. }
  unfold PrivateKey.__ne__. rewrite Heq. split.
  - apply bool_decide_eq_true.
  - rewrite negb_true_iff. apply bool_decide_eq_false.
Qed.

(** X9. On the two curves, with hashes of their lengths, every seed of the
    curve's length builds a [PrivateKey], at the cost of one hash, with no
    public key stored yet and a pruned scalar: a multiple of 8 in
    [2^254, 2^255) on ed25519, a multiple of 4 in [2^447, 2^448) on
    ed448. *)
Theorem private_key_construction (seed : bytes) (w : World) :
  hash_laws ->
  (len seed = baselen_of curve_ed25519 ->
   exists sk,
     PrivateKey.__init__ generator_ed25519 seed w = (Return sk, w ++ [EvHash])
     /\ PrivateKey.__public_key sk = None
     /\ PrivateKey.__s sk mod 8 = 0
     /\ 2 ^ 254 <= PrivateKey.__s sk < 2 ^ 255)
  /\ (len seed = baselen_of curve_ed448 ->
      exists sk,
        PrivateKey.__init__ generator_ed448 seed w = (Return sk, w ++ [EvHash])
        /\ PrivateKey.__public_key sk = None
        /\ PrivateKey.__s sk mod 4 = 0
        /\ 2 ^ 447 <= PrivateKey.__s sk < 2 ^ 448).
Proof.
  intros Hhash. split; intros Hseed; rewrite PrivateKey_init_eq;
    apply Z.eqb_eq in Hseed as Hseed'.
  - change (Generator.curve generator_ed25519) with curve_ed25519.
    rewrite Hseed'. cbv zeta.
    destruct (scalar_ed25519
                (slice_to (CurveEdTw.hash_func curve_ed25519 seed)
                          (baselen_of curve_ed25519)))
      as (a & Ha & Hm & Hr).
    { apply (len_slice_to generator_ed25519).
      change (CurveEdTw.hash_func _ seed) with (sha512 seed).
      rewrite (sha512_length Hhash). vm_compute. split; discriminate. }
    rewrite Ha. eexists. split; [reflexivity|]. auto.
  - change (Generator.curve generator_ed448) with curve_ed448.
    rewrite Hseed'. cbv zeta.
    destruct (scalar_ed448
                (slice_to (CurveEdTw.hash_func curve_ed448 seed)
                          (baselen_of curve_ed448)))
      as (a & Ha & Hm & Hr).
    { apply (len_slice_to generator_ed448).
      change (CurveEdTw.hash_func _ seed) with (shake_256 seed 114).
      rewrite (shake_256_length Hhash) by lia. vm_compute. split; discriminate. }
    rewrite Ha. eexists. split; [reflexivity|]. auto.
Qed.

(** *** What [sign] and [public_key()] leave behind *)

Lemma public_key_result (g : Generator.t) (seed : bytes)
    (sk sk' : PrivateKey.t) (w w' : World) (pk : PublicKey.t) :
  reachable g seed sk ->
  PrivateKey.public_key (sk, w) = (Return pk, (sk', w')) ->
  exists s,
    0 <= s
    /\ PrivateKey.__s sk' = s
    /\ pk = PublicKey.Build g (Generator.curve g)
              (encode (scalar_mul (Generator.element g) s))
              (baselen_of (Generator.curve g))
              (scalar_mul (Generator.element g) s)
    /\ len (encode (scalar_mul (Generator.element g) s))
       = baselen_of (Generator.curve g)
    /\ PrivateKey.__public_key sk' = Some pk
    /\ reachable g seed sk'
    /\ ((PrivateKey.__public_key sk = None
         /\ w' = w ++ [EvScalarMul; EvEncode])
        \/ (PrivateKey.__public_key sk = Some pk /\ sk' = sk /\ w' = w)).
Proof.
  intros Hr Hpk.
  assert (Hr' : reachable g seed sk') by exact (reach_public_key _ _ _ _ _ _ _ Hr Hpk).
  destruct (reachable_fields g seed sk Hr) as (Hg & _ & _ & _ & _ & _ & a & _ & Hs).
  assert (Hs0 : 0 <= PrivateKey.__s sk)
    by (rewrite Hs; apply bytes_to_int_range).
  exists (PrivateKey.__s sk). split; [assumption|].
  destruct (PrivateKey.__public_key sk) as [pk0|] eqn:Hc.
  - rewrite (public_key_cached sk pk0 w Hc) in Hpk. injection Hpk as <- <- <-.
    apply reachable_invariant in Hr as (sk0 & v & v' & Hinit & Hinv).
    apply PrivateKey_init_fields in Hinit as (_ & _ & a0 & _ & Hsk0).
    destruct Hinv as [Hnone [-> | [Hlen ->]]]; [congruence|].
    cbn [PrivateKey.set_public_key PrivateKey.__public_key] in Hc.
    injection Hc as <-. subst sk0.
    cbn [PrivateKey.set_public_key PrivateKey.__s PrivateKey.__public_key
         derived_public_key PrivateKey.generator PublicKey.__encoded] in *.
    repeat split; auto.
  - rewrite (public_key_fresh sk w Hc) in Hpk. cbv zeta in Hpk. rewrite Hg in Hpk.
    destruct (Z.eqb_spec
                (len (encode (scalar_mul (Generator.element g) (PrivateKey.__s sk))))
                (baselen_of (Generator.curve g))) as [Hlen|Hlen];
      [|discriminate].
    injection Hpk as <- <- <-.
    cbn [PrivateKey.set_public_key PrivateKey.__s PrivateKey.__public_key].
    repeat split; auto.
Qed.

(** X10. A [sign] that returns leaves the public key stored: from then on
    [public_key()] returns it without calling the engine. [sign] hashes
    twice and multiplies once for [R]; when the public key was not stored
    yet it multiplies and encodes once more before; it never decodes, adds
    or compares points. *)
Theorem sign_engine_calls (g : Generator.t) (seed data signature : bytes)
    (sk sk' : PrivateKey.t) (w w' : World) :
  reachable g seed sk ->
  PrivateKey.sign data (sk, w) = (Return signature, (sk', w')) ->
  exists pk,
    PrivateKey.__public_key sk' = Some pk
    /\ (forall v, PrivateKey.public_key (sk', v) = (Return pk, (sk', v)))
    /\ ((PrivateKey.__public_key sk = None
         /\ w' = w ++ [EvScalarMul; EvEncode;
                       EvHash; EvScalarMul; EvEncode; EvHash])
        \/ (PrivateKey.__public_key sk = Some pk
            /\ sk' = sk
            /\ w' = w ++ [EvHash; EvScalarMul; EvEncode; EvHash])).
Proof.
  intros Hr. rewrite sign_eq.
  destruct (PrivateKey.public_key (sk, w)) as [[pk|err] [sk1 w1]] eqn:Hpk;
    [|discriminate].
  cbv zeta. destruct (py_mod _ _) as [k'|err]; [|discriminate].
  destruct (py_mod _ _) as [S'|err]; [|discriminate].
  intros [= _ <- <-].
  destruct (public_key_result g seed sk sk1 w w1 pk Hr Hpk)
    as (s & _ & _ & _ & _ & Hc & _ & Hcase).
  exists pk. split; [assumption|]. split.
  - intros v. apply public_key_cached. assumption.
  - destruct Hcase as [[Hnone ->] | (Hsome & -> & ->)].
    + left. split; [assumption|]. rewrite <- app_assoc. reflexivity.
    + right. auto.
Qed.

Lemma sign_returns (g : Generator.t) (seed data : bytes)
    (sk : PrivateKey.t) (w : World) :
  g = generator_ed25519 \/ g = generator_ed448 ->
  (forall n, 0 <= n ->
     len (encode (scalar_mul (Generator.element g) n))
     = baselen_of (Generator.curve g)) ->
  reachable g seed sk ->
  exists signature sk' w',
    PrivateKey.sign data (sk, w) = (Return signature, (sk', w'))
    /\ len signature = 2 * baselen_of (Generator.curve g)
    /\ 0 <= bytes_to_int (slice_from signature (baselen_of (Generator.curve g)))
       < Generator.order g
    /\ exists r,
         0 <= r
         /\ slice_to signature (baselen_of (Generator.curve g))
            = encode (scalar_mul (Generator.element g) r).
Proof.
  intros Hg Henc Hr.
  assert (Ho : 0 < Generator.order g
               < 2 ^ (8 * baselen_of (Generator.curve g))).
  { destruct Hg as [-> | ->]; vm_compute; split; reflexivity. }
  assert (HB : 0 <= baselen_of (Generator.curve g)).
  { destruct Hg as [-> | ->]; vm_compute; discriminate. }
  destruct (reachable_fields g seed sk Hr)
    as (G0 & _ & _ & _ & _ & _ & a & _ & Hs).
  assert (Hs0 : 0 <= PrivateKey.__s sk)
    by (rewrite Hs; apply bytes_to_int_range).
  assert (Hpk : exists pk sk1 w1,
            PrivateKey.public_key (sk, w) = (Return pk, (sk1, w1))).
  { destruct (PrivateKey.__public_key sk) as [pk0|] eqn:Hc.
    - rewrite (public_key_cached sk pk0 w Hc). eauto.
    - rewrite (public_key_fresh sk w Hc). cbv zeta. rewrite G0.
      rewrite Henc, Z.eqb_refl by assumption. eauto. }
  destruct Hpk as (pk & sk1 & w1 & Hpk).
  destruct (public_key_result g seed sk sk1 w w1 pk Hr Hpk)
    as (s & _ & _ & _ & _ & _ & Hr1 & _).
  destruct (reachable_fields g seed sk1 Hr1) as (G1 & C1 & B1 & _).
  rewrite sign_eq, Hpk. cbv zeta. rewrite G1, C1, B1. unfold py_mod.
  destruct (Z.eqb_spec (Generator.order g) 0) as [|_]; [lia|].
  do 3 eexists. split; [reflexivity|].
  set (r := bytes_to_int _).
  assert (Hr0 : 0 <= r) by apply bytes_to_int_range.
  set (S' := _ mod Generator.order g).
  assert (HS : 0 <= S' < Generator.order g) by (apply Z.mod_pos_bound; lia).
  rewrite (len_app g), Henc, len_int_to_bytes by assumption.
  rewrite (slice_from_app g), (slice_to_app g) by (apply Henc; assumption).
  rewrite bytes_to_int_to_bytes by lia.
  split; [lia|]. split; [assumption|]. eauto.
Qed.

(** X11. On the two curves, with an engine that encodes the multiples of
    the base point on [baselen] bytes, [sign] returns for every message,
    in every state of the key, and what it returns is [2 * baselen] bytes
    long: first the encoding of a multiple of the base point, then an [S]
    below the order. *)
Theorem signature_well_formed (g : Generator.t) (seed data : bytes)
    (sk : PrivateKey.t) (w : World) :
  g = generator_ed25519 \/ g = generator_ed448 ->
  (forall n, 0 <= n ->
     len (encode (scalar_mul (Generator.element g) n))
     = baselen_of (Generator.curve g)) ->
  reachable g seed sk ->
  exists signature sk' w',
    PrivateKey.sign data (sk, w) = (Return signature, (sk', w'))
    /\ len signature = 2 * baselen_of (Generator.curve g)
    /\ 0 <= bytes_to_int (slice_from signature (baselen_of (Generator.curve g)))
       < Generator.order g
    /\ exists r,
         0 <= r
         /\ slice_to signature (baselen_of (Generator.curve g))
            = encode (scalar_mul (Generator.element g) r).
Proof. exact (sign_returns g seed data sk w). Qed.

(** X14. A signature made on one of the two curves is refused by any
    public key of the other for its length alone, before the engine or
    the hash is called. *)
Theorem signature_of_the_other_curve
    (g : Generator.t) (seed data data' signature : bytes)
    (sk sk' : PrivateKey.t) (w w' v : World) (pk : PublicKey.t) :
  (g = generator_ed25519
   /\ PublicKey.baselen pk = baselen_of curve_ed448)
  \/ (g = generator_ed448
      /\ PublicKey.baselen pk = baselen_of curve_ed25519) ->
  (forall n, 0 <= n ->
     len (encode (scalar_mul (Generator.element g) n))
     = baselen_of (Generator.curve g)) ->
  reachable g seed sk ->
  PrivateKey.sign data (sk, w) = (Return signature, (sk', w')) ->
  PublicKey.verify data' signature (pk, v)
  = (Raise (ValueError ("Invalid signature length, expected: "
                        ++ format_int (2 * PublicKey.baselen pk)
                        ++ " bytes")), (pk, v)).
Proof.
  intros Hcase Henc Hr Hsign.
  assert (Hg : g = generator_ed25519 \/ g = generator_ed448)
    by (destruct Hcase as [[-> _] | [-> _]]; auto).
  destruct (sign_returns g seed data sk w Hg Henc Hr)
    as (sig & sk1 & w1 & Hsign' & Hlen & _).
  rewrite Hsign in Hsign'. injection Hsign' as <- _ _.
  rewrite verify_eq.
  destruct (Z.eqb_spec (len signature) (2 * PublicKey.baselen pk)) as [E|_];
    [|reflexivity].
  exfalso. rewrite Hlen in E.
  destruct Hcase as [[-> Hb] | [-> Hb]]; rewrite Hb in E;
    vm_compute in E; discriminate.
Qed.

(** X12. The bytes of a derived public key build the same key again: with
    a group engine for the generator, [PublicKey(generator, bytes)] on the
    bytes that [public_key().public_key()] returns succeeds with one
    decoding and gives a key with the same bytes and the same point. *)
Theorem public_key_bytes_roundtrip (g : Generator.t) (seed : bytes)
    (sk sk' : PrivateKey.t) (w w' v : World) (pk : PublicKey.t) :
  engine_laws g ->
  reachable g seed sk ->
  PrivateKey.public_key (sk, w) = (Return pk, (sk', w')) ->
  PublicKey.__init__ g (PublicKey.public_key pk) None v
  = (Return pk, v ++ [EvDecode]).
Proof.
  intros laws Hr Hpk.
  destruct (public_key_result g seed sk sk' w w' pk Hr Hpk)
    as (s & Hs & _ & -> & Hlen & _).
  rewrite PublicKey_init_eq.
  cbn [PublicKey.public_key PublicKey.__encoded].
  apply Z.eqb_eq in Hlen. rewrite Hlen.
  rewrite (decode_encode g laws) by assumption. reflexivity.
Qed.

(** X13. [==] is an equivalence on [PublicKey]s and on [PrivateKey]s, and
    [!=] is its negation. *)
Theorem eq_is_an_equivalence :
  ((forall a : PublicKey.t, PublicKey.__eq__ a a = true)
   /\ (forall a b : PublicKey.t,
        PublicKey.__eq__ a b = PublicKey.__eq__ b a)
   /\ (forall a b c : PublicKey.t,
        PublicKey.__eq__ a b = true -> PublicKey.__eq__ b c = true ->
        PublicKey.__eq__ a c = true)
   /\ (forall a b : PublicKey.t,
        PublicKey.__ne__ a b = true <-> PublicKey.__eq__ a b = false))
  /\ ((forall a : PrivateKey.t, PrivateKey.__eq__ a a = true)
      /\ (forall a b : PrivateKey.t,
           PrivateKey.__eq__ a b = PrivateKey.__eq__ b a)
      /\ (forall a b c : PrivateKey.t,
           PrivateKey.__eq__ a b = true -> PrivateKey.__eq__ b c = true ->
           PrivateKey.__eq__ a c = true)
      /\ (forall a b : PrivateKey.t,
           PrivateKey.__ne__ a b = true <-> PrivateKey.__eq__ a b = false)).
Proof.
  assert (Crefl : forall c, CurveEdTw.__eq__ c c = true).
  { intros c. unfold CurveEdTw.__eq__. rewrite !Z.eqb_refl. reflexivity. }
  assert (Csym : forall c1 c2, CurveEdTw.__eq__ c1 c2 = CurveEdTw.__eq__ c2 c1).
  { intros c1 c2. unfold CurveEdTw.__eq__.
    rewrite (Z.eqb_sym (CurveEdTw.p c1)), (Z.eqb_sym (CurveEdTw.a c1)),
      (Z.eqb_sym (CurveEdTw.d c1)). reflexivity. }
  assert (Ctrans : forall c1 c2 c3,
            CurveEdTw.__eq__ c1 c2 = true -> CurveEdTw.__eq__ c2 c3 = true ->
            CurveEdTw.__eq__ c1 c3 = true).
  { intros c1 c2 c3. unfold CurveEdTw.__eq__.
    rewrite !andb_true_iff, !Z.eqb_eq. intuition congruence. }
  assert (Bsym : forall x y : bytes, bool_decide (x = y) = bool_decide (y = x)).
  { intros x y. apply bool_decide_ext. split; congruence. }
  split; repeat split.
  - intros a. unfold PublicKey.__eq__.
    rewrite Crefl, bool_decide_eq_true_2; reflexivity.
  - intros a b. unfold PublicKey.__eq__. rewrite Csym, Bsym. reflexivity.
  - intros a b c. unfold PublicKey.__eq__.
    rewrite !andb_true_iff, !bool_decide_eq_true.
    intros [C1 E1] [C2 E2]. split; [eauto | congruence].
  - unfold PublicKey.__ne__. apply negb_true_iff.
  - unfold PublicKey.__ne__. apply negb_true_iff.
  - intros a. unfold PrivateKey.__eq__.
    rewrite Crefl, bool_decide_eq_true_2; reflexivity.
  - intros a b. unfold PrivateKey.__eq__. rewrite Csym, Bsym. reflexivity.
  - intros a b c. unfold PrivateKey.__eq__.
    rewrite !andb_true_iff, !bool_decide_eq_true.
    intros [C1 E1] [C2 E2]. split; [eauto | congruence].
  - unfold PrivateKey.__ne__. apply negb_true_iff.
  - unfold PrivateKey.__ne__. apply negb_true_iff.
Qed.

(** X15. Signing, handing the public key on as bytes and verifying with
    the key built from them succeeds: for every seed of the curve's length
    and every message, on both curves, with a group engine and hashes of
    their lengths. *)
Theorem sign_export_verify_accepts (seed message : bytes) (w : World) :
  hash_laws ->
  engine_laws generator_ed25519 ->
  engine_laws generator_ed448 ->
  (len seed = baselen_of curve_ed25519 ->
   exists w',
     sign_export_verify generator_ed25519 seed message w = (Return true, w'))
  /\ (len seed = baselen_of curve_ed448 ->
      exists w',
        sign_export_verify generator_ed448 seed message w = (Return true, w')).
Proof.
  intros Hhash L25519 L448.
  assert (Hgen : forall g,
            engine_laws g ->
            0 < Generator.order g < 2 ^ (8 * baselen_of (Generator.curve g)) ->
            (forall key : bytes, len key = baselen_of (Generator.curve g) ->
               exists a, PrivateKey._key_prune (Generator.curve g) key = Return a) ->
            (forall x : bytes,
               baselen_of (Generator.curve g)
               <= len (CurveEdTw.hash_func (Generator.curve g) x)) ->
            len seed = baselen_of (Generator.curve g) ->
            exists w', sign_export_verify g seed message w = (Return true, w')).
  { intros g laws Ho Hprune Hlong Hseed.
    destruct (init_accepts g Ho Hprune Hlong seed Hseed)
      as (sk & Hinit & Hnone & Hg & Hc & Hb & Hs).
    unfold sign_export_verify.
    rewrite (bind_step _ _ _ _ _ (Hinit w)).
    destruct (sign_accepts g laws Ho message sk (w ++ [EvHash]) Hnone Hg Hc Hb Hs)
      as (r & sk' & w1 & Hr & Hsign).
    rewrite (bind_step _ _ _ _ _ (call_step _ _ _ _ _ _ Hsign)).
    cbn [fst snd].
    assert (Hsk' : sk' = PrivateKey.set_public_key sk (derived_public_key sk)).
    { apply sign_keeps_public_key_state in Hsign as (r0 & w0 & Hpk).
      rewrite (public_key_accepts g laws sk _ Hnone Hg Hs) in Hpk.
      congruence. }
    assert (Hpk : PrivateKey.public_key (sk', w1)
                  = (Return (derived_public_key sk), (sk', w1)))
      by (apply public_key_cached; rewrite Hsk'; reflexivity).
    rewrite (bind_step _ _ _ _ _ (call_step _ _ _ _ _ _ Hpk)).
    cbn [fst snd].
    assert (Hpub : PublicKey.__init__ g
                     (PublicKey.public_key (derived_public_key sk)) None w1
                   = (Return (derived_public_key sk), w1 ++ [EvDecode])).
    { rewrite PublicKey_init_eq. unfold derived_public_key.
      cbn [PublicKey.public_key PublicKey.__encoded].
      rewrite Hg.
      rewrite (encode_length g laws), Z.eqb_refl by assumption.
      rewrite (decode_encode g laws) by assumption. reflexivity. }
    rewrite (bind_step _ _ _ _ _ Hpub).
    destruct (verify_accepts g laws Ho message sk r (w1 ++ [EvDecode]) Hg Hs Hr)
      as (w2 & Hver).
    rewrite (bind_step _ _ _ _ _ (call_step _ _ _ _ _ _ Hver)).
    eexists. reflexivity. }
  split; intros Hseed.
  - apply (Hgen generator_ed25519 L25519); try assumption.
    + vm_compute. split; reflexivity.
    + intros key Hkey.
      destruct (scalar_ed25519 key Hkey) as (a & Ha & _). eauto.
    + intros x. change (CurveEdTw.hash_func _ x) with (sha512 x).
      rewrite (sha512_length Hhash). vm_compute. discriminate.
  - apply (Hgen generator_ed448 L448); try assumption.
    + vm_compute. split; reflexivity.
    + intros key Hkey.
      destruct (scalar_ed448 key Hkey) as (a & Ha & _). eauto.
    + intros x. change (CurveEdTw.hash_func _ x) with (shake_256 x 114).
      rewrite (shake_256_length Hhash) by lia. vm_compute. discriminate.
Qed.
End MoreMethods.


(** ** The module at work on the small engine *)

Section ToyRuns.
(** The small engine and its hashes satisfy what the properties assume. *)
#[local] Existing Instances Toy.hashes Toy.engine.

Lemma toy_hash_laws : hash_laws.
Proof.
  assert (Hpad : forall n data, 0 <= n -> len (Toy.pad n data) = n).
  { intros n data Hn. unfold len, Toy.pad.
    rewrite length_take, length_app, repeat_length. lia. }
  split.
  - intros data. apply Hpad. lia.
  - intros data n Hn. apply Hpad. exact Hn.
Qed.

Lemma toy_engine_laws (g : Generator.t) :
  Generator.element g
  = Toy.Elt (baselen_of (Generator.curve g)) (Toy.order_for (Generator.curve g)) 1 ->
  Generator.order g = Toy.order_for (Generator.curve g) ->
  0 < Generator.order g < 2 ^ (8 * baselen_of (Generator.curve g)) ->
  engine_laws g.
Proof.
  intros HG Ho Hr.
  assert (HB : 0 <= baselen_of (Generator.curve g)).
  { destruct (Z.le_gt_cases 0 (baselen_of (Generator.curve g))); [assumption|].
    rewrite Z.pow_neg_r in Hr by lia. lia. }
  rewrite Ho in Hr.
  split; rewrite ?HG, ?Ho; cbn [scalar_mul point_add encode decode point_equal
    Toy.engine Toy.width Toy.modulus Toy.value].
  - intros n Hn. apply len_int_to_bytes. exact HB.
  - intros n Hn.
    assert (0 <= 1 * n mod Toy.order_for (Generator.curve g)
            < Toy.order_for (Generator.curve g)) by (apply Z.mod_pos_bound; lia).
    rewrite bytes_to_int_to_bytes by lia.
    destruct (Z.ltb_spec (1 * n mod Toy.order_for (Generator.curve g))
                         (Toy.order_for (Generator.curve g))); [|lia].
    reflexivity.
  - intros P. rewrite !Z.eqb_refl. reflexivity.
  - intros m n Hm Hn. f_equal. rewrite <- Z.add_mod by lia. f_equal. ring.
  - intros m n Hm Hn. f_equal. rewrite Z.mul_mod_idemp_l by lia. f_equal. ring.
  - f_equal. rewrite Z.mul_1_l, Z.mod_same by lia. reflexivity.
Qed.

Lemma toy_laws_ed25519 : engine_laws generator_ed25519.
Proof.
  apply toy_engine_laws; [reflexivity | reflexivity | vm_compute; split; reflexivity].
Qed.

Lemma toy_laws_ed448 : engine_laws generator_ed448.
Proof.
  apply toy_engine_laws; [reflexivity | reflexivity | vm_compute; split; reflexivity].
Qed.

Lemma sign_verify_roundtrip_witness :
  (len Toy.seed_25519 = baselen_of curve_ed25519
   /\ exists w',
        sign_then_verify generator_ed25519 Toy.seed_25519 [] []
        = (Return true, w'))
  /\ (len Toy.seed_448 = baselen_of curve_ed448
      /\ exists w',
        sign_then_verify generator_ed448 Toy.seed_448 [x61; x62; x63] []
        = (Return true, w')).
Proof.
  split; (split; [reflexivity|]).
  - apply (sign_verify_roundtrip Toy.seed_25519 [] []
             toy_hash_laws toy_laws_ed25519 toy_laws_ed448).
    reflexivity.
  - apply (sign_verify_roundtrip Toy.seed_448 [x61; x62; x63] []
             toy_hash_laws toy_laws_ed25519 toy_laws_ed448).
    reflexivity.
Defined.

(** The round trip, run on both curves. *)
Example sign_then_verify_ed25519_run :
  sign_then_verify generator_ed25519 Toy.seed_25519 [] []
  = (Return true,
     [EvHash; EvScalarMul; EvEncode; EvHash;
      EvScalarMul; EvEncode; EvHash; EvScalarMul; EvEncode; EvHash;
      EvDecode; EvEncode; EvHash; EvScalarMul; EvScalarMul; EvPointAdd;
      EvPointEqual]).
Proof. vm_compute. reflexivity. Qed.

Example sign_then_verify_ed448_run :
  fst (sign_then_verify generator_ed448 Toy.seed_448 [x61; x62; x63] [])
  = Return true.
Proof. vm_compute. reflexivity. Qed.

Lemma toy_init_25519 :
  exists sk w, PrivateKey.__init__ generator_ed25519 Toy.seed_25519 [] = (Return sk, w).
Proof.
  destruct (PrivateKey.__init__ generator_ed25519 Toy.seed_25519 [])
    as [[sk|e] w] eqn:E; [eauto|].
  vm_compute in E. discriminate.
Qed.

Lemma sign_deterministic_witness :
  exists sk1 sk2,
    reachable generator_ed25519 Toy.seed_25519 sk1
    /\ reachable generator_ed25519 Toy.seed_25519 sk2
    /\ fst (PrivateKey.sign [x61] (sk1, []))
       = fst (PrivateKey.sign [x61] (sk2, [EvHash])).
Proof.
  destruct toy_init_25519 as (sk & w & Hinit).
  assert (R1 : reachable generator_ed25519 Toy.seed_25519 sk)
    by exact (reach_init _ _ _ _ _ Hinit).
  destruct (PrivateKey.public_key (sk, w)) as [r [sk' w']] eqn:Hpk.
  assert (R2 : reachable generator_ed25519 Toy.seed_25519 sk')
    by exact (reach_public_key _ _ _ _ _ _ _ R1 Hpk).
  exists sk, sk'. split; [exact R1|]. split; [exact R2|].
  exact (sign_deterministic generator_ed25519 Toy.seed_25519 [x61]
           sk sk' [] [EvHash] R1 R2).
Defined.

Lemma key_prune_scalar_range_witness :
  (exists key',
     PrivateKey._key_prune curve_ed25519 Toy.seed_25519 = Return key'
     /\ bytes_to_int key' mod 8 = 0
     /\ 2 ^ 254 <= bytes_to_int key' < 2 ^ 255)
  /\ (exists key',
     PrivateKey._key_prune curve_ed448 Toy.seed_448 = Return key'
     /\ bytes_to_int key' mod 4 = 0
     /\ 2 ^ 447 <= bytes_to_int key' < 2 ^ 448).
Proof.
  split.
  - destruct (proj1 key_prune_scalar_range Toy.seed_25519 eq_refl)
      as (key' & Hp & _ & _ & Hm & Hr & _).
    exists key'. auto.
  - destruct (proj2 key_prune_scalar_range Toy.seed_448 eq_refl)
      as (key' & Hp & _ & _ & Hm & Hr & _).
    exists key'. auto.
Defined.

Lemma key_prune_idempotent_witness :
  (exists key',
     PrivateKey._key_prune curve_ed25519 Toy.seed_25519 = Return key'
     /\ PrivateKey._key_prune curve_ed25519 key' = Return key')
  /\ (exists key',
     PrivateKey._key_prune curve_ed448 Toy.seed_448 = Return key'
     /\ PrivateKey._key_prune curve_ed448 key' = Return key').
Proof.
  split.
  - exact (key_prune_idempotent curve_ed25519 Toy.seed_25519
             (or_introl eq_refl) eq_refl).
  - exact (key_prune_idempotent curve_ed448 Toy.seed_448
             (or_intror eq_refl) eq_refl).
Defined.

(** Pruning, run on the all-ones and the all-zeroes key. *)
Example key_prune_ed25519_run :
  PrivateKey._key_prune curve_ed25519 (repeat xff 32)
  = Return (xf8 :: repeat xff 30 ++ [x7f]).
Proof. vm_compute. reflexivity. Qed.

Example key_prune_ed448_run :
  PrivateKey._key_prune curve_ed448 (repeat x00 57)
  = Return (repeat x00 55 ++ [x80; x00]).
Proof. vm_compute. reflexivity. Qed.

(** C3, as stated, fails. On a 64-byte signature whose first half is not
    a point and whose second half is an [S] above the order, [verify] does
    not raise [ValueError("Invalid signature")]: the decoding comes first
    and its failure is what surfaces. And where it does reject [S], the
    trace shows the decoding of [R] done before. *)
Lemma verify_decodes_R_before_checking_S :
  PublicKey.__init__ generator_ed25519 Toy.key_bytes None []
  = (Return Toy.public_key, [EvDecode])
  /\ len Toy.sig_bad_R_large_S = 2 * PublicKey.baselen Toy.public_key
  /\ Generator.order generator_ed25519
     <= bytes_to_int (slice_from Toy.sig_bad_R_large_S 32)
  /\ PublicKey.verify [] Toy.sig_bad_R_large_S (Toy.public_key, [])
     = (Raise InvalidEncodedPoint, (Toy.public_key, [EvDecode]))
  /\ InvalidEncodedPoint <> ValueError "Invalid signature"
  /\ PublicKey.verify [] Toy.sig_large_S (Toy.public_key, [])
     = (Raise (ValueError "Invalid signature"), (Toy.public_key, [EvDecode])).
Proof.
  repeat split; try (vm_compute; reflexivity); vm_compute; discriminate.
Qed.

Lemma verify_rejects_large_S_witness :
  len Toy.sig_large_S = 2 * PublicKey.baselen Toy.public_key
  /\ PublicKey.verify [] Toy.sig_large_S (Toy.public_key, [])
     = (Raise (ValueError "Invalid signature"), (Toy.public_key, [EvDecode]))
  /\ exists r,
       PublicKey.verify [] Toy.sig_top_S (Toy.public_key, [])
       = (r, (Toy.public_key,
              [EvDecode; EvEncode; EvHash; EvScalarMul; EvScalarMul;
               EvPointAdd; EvPointEqual])).
Proof.
  split; [reflexivity|]. split.
  - refine (proj1 (proj2 (verify_rejects_large_S [] Toy.sig_large_S
                            Toy.public_key [] eq_refl)
                         (Toy.Elt 32 Ed25519._r 0) eq_refl) _).
    vm_compute. discriminate.
  - refine (proj2 (proj2 (verify_rejects_large_S [] Toy.sig_top_S
                            Toy.public_key [] eq_refl)
                         (Toy.Elt 32 Ed25519._r 0) eq_refl) _).
    vm_compute. reflexivity.
Defined.

(** C5, as stated, fails. A signature rejected because [S] is not below
    the order and a well-formed one rejected because the equation does not
    hold raise the very same exception; only the trace tells them apart. *)
Lemma verify_value_failures_are_one_error :
  Generator.order generator_ed25519
  <= bytes_to_int (slice_from Toy.sig_large_S 32)
  /\ bytes_to_int (slice_from Toy.sig_small_S 32)
     < Generator.order generator_ed25519
  /\ PublicKey.verify [] Toy.sig_large_S (Toy.public_key, [])
     = (Raise (ValueError "Invalid signature"), (Toy.public_key, [EvDecode]))
  /\ PublicKey.verify [] Toy.sig_small_S (Toy.public_key, [])
     = (Raise (ValueError "Invalid signature"),
        (Toy.public_key,
         [EvDecode; EvEncode; EvHash; EvScalarMul; EvScalarMul;
          EvPointAdd; EvPointEqual]))
  /\ fst (PublicKey.verify [] Toy.sig_large_S (Toy.public_key, []))
     = fst (PublicKey.verify [] Toy.sig_small_S (Toy.public_key, [])).
Proof.
  repeat split; try (vm_compute; reflexivity); vm_compute; discriminate.
Qed.

Lemma verify_value_failures_coincide_witness :
  fst (PublicKey.verify [] Toy.sig_large_S (Toy.public_key, []))
  = Raise (ValueError "Invalid signature")
  /\ fst (PublicKey.verify [] Toy.sig_small_S (Toy.public_key, []))
     = Raise (ValueError "Invalid signature").
Proof.
  split.
  - refine (proj1 (verify_value_failures_coincide [] Toy.sig_large_S
                     Toy.public_key [] (Toy.Elt 32 Ed25519._r 0)
                     eq_refl eq_refl) _).
    vm_compute. discriminate.
  - refine (proj2 (verify_value_failures_coincide [] Toy.sig_small_S
                     Toy.public_key [] (Toy.Elt 32 Ed25519._r 0)
                     eq_refl eq_refl) _ _).
    + vm_compute. reflexivity.
    + vm_compute. reflexivity.
Defined.

Lemma public_key_equality_witness :
  exists k1 k2,
    PublicKey.__init__ generator_ed25519 (repeat x00 32) None [] = (Return k1, [EvDecode])
    /\ PublicKey.__init__ generator_ed448 (repeat x00 57) None [] = (Return k2, [EvDecode])
    /\ PublicKey.__eq__ k1 k2 = false
    /\ PublicKey.__eq__ k2 k1 = false.
Proof.
  do 2 eexists.
  assert (H1 : PublicKey.__init__ generator_ed25519 (repeat x00 32) None []
               = (Return (PublicKey.Build generator_ed25519 curve_ed25519
                            (repeat x00 32) 32 (Toy.Elt 32 Ed25519._r 0)),
                  [EvDecode])) by (vm_compute; reflexivity).
  assert (H2 : PublicKey.__init__ generator_ed448 (repeat x00 57) None []
               = (Return (PublicKey.Build generator_ed448 curve_ed448
                            (repeat x00 57) 57 (Toy.Elt 57 Ed448._r 0)),
                  [EvDecode])) by (vm_compute; reflexivity).
  split; [exact H1|]. split; [exact H2|].
  exact (proj1 (proj2 (proj2 public_key_equality)) _ _ _ _ _ _ _ _ _ _ H1 H2).
Defined.

Lemma public_key_memoized_witness :
  exists sk w1 pk sk',
    PrivateKey.__init__ generator_ed25519 Toy.seed_25519 [] = (Return sk, w1)
    /\ PrivateKey.public_key (sk, w1)
       = (Return pk, (sk', w1 ++ [EvScalarMul; EvEncode]))
    /\ (forall w', PrivateKey.public_key (sk', w') = (Return pk, (sk', w')))
    /\ PublicKey.__eq__ pk pk = true.
Proof.
  destruct toy_init_25519 as (sk & w1 & Hinit).
  destruct (public_key_memoized generator_ed25519 Toy.seed_25519 [] w1 w1 sk
              Hinit)
    as (pk & sk' & Hfirst & _ & _ & _ & Hnext & Heq).
  { apply (encode_length _ toy_laws_ed25519).
    rewrite PrivateKey_init_eq in Hinit.
    destruct (len Toy.seed_25519 =? _); [|discriminate]. cbv zeta in Hinit.
    destruct (PrivateKey._key_prune _ _); [|discriminate].
    injection Hinit as <- _. apply bytes_to_int_range. }
  exists sk, w1, pk, sk'. auto.
Defined.
End ToyRuns.


(** ** More runs on the small engine *)

Section MoreToyRuns.
#[local] Existing Instances Toy.hashes Toy.engine.

Lemma toy_public_key_25519 :
  exists sk w pk sk' w',
    PrivateKey.__init__ generator_ed25519 Toy.seed_25519 [] = (Return sk, w)
    /\ PrivateKey.public_key (sk, w) = (Return pk, (sk', w')).
Proof.
  destruct toy_init_25519 as (sk & w & Hinit).
  exists sk, w.
  destruct (PrivateKey_init_fields _ _ _ _ _ Hinit) as (_ & _ & a & _ & Hsk).
  assert (Hs : 0 <= PrivateKey.__s sk)
    by (rewrite Hsk; apply bytes_to_int_range).
  rewrite (public_key_accepts generator_ed25519 toy_laws_ed25519 sk w);
    [eauto | rewrite Hsk; reflexivity | rewrite Hsk; reflexivity | exact Hs].
Qed.

Lemma toy_sign_25519 :
  exists sk w signature sk' w',
    reachable generator_ed25519 Toy.seed_25519 sk
    /\ PrivateKey.sign [x61] (sk, w) = (Return signature, (sk', w')).
Proof.
  destruct toy_init_25519 as (sk & w & Hinit).
  assert (Hr : reachable generator_ed25519 Toy.seed_25519 sk)
    by exact (reach_init _ _ _ _ _ Hinit).
  destruct (sign_returns generator_ed25519 Toy.seed_25519 [x61] sk w
              (or_introl eq_refl) (encode_length _ toy_laws_ed25519) Hr)
    as (sig & sk' & w' & Hsign & _).
  exists sk, w, sig, sk', w'. auto.
Qed.

Lemma key_prune_frame_witness :
  exists key',
    PrivateKey._key_prune curve_ed25519 Toy.seed_25519 = Return key'
    /\ length key' = 32%nat
    /\ key' !! 7%nat = Some x2a.
Proof.
  destruct (scalar_ed25519 Toy.seed_25519 eq_refl) as (key' & Hp & _).
  destruct (proj1 (key_prune_frame Toy.seed_25519 key') Hp) as [Hlen Hmid].
  exists key'. split; [exact Hp|]. split; [exact Hlen|].
  rewrite (Hmid 7%nat); [reflexivity | discriminate | discriminate].
Defined.

Lemma unsupported_cofactor_witness :
  PrivateKey._key_prune Toy.curve_cofactor_1 []
  = Raise (ValueError "Only cofactor 4 and 8 curves supported")
  /\ PrivateKey.__init__ Toy.generator_cofactor_1 [x05] []
     = (Raise (ValueError "Only cofactor 4 and 8 curves supported"), [EvHash]).
Proof.
  destruct (unsupported_cofactor Toy.generator_cofactor_1 [x05] [] [])
    as [Hp Hi]; [discriminate | discriminate |].
  split; [exact Hp | exact (Hi eq_refl)].
Defined.

Lemma length_checks_come_first_witness :
  PrivateKey.__init__ generator_ed25519 [x00] []
  = (Raise (ValueError "Incorrect size of private key, expected: 32 bytes"), [])
  /\ PublicKey.verify [] [x00] (Toy.public_key, [])
     = (Raise (ValueError "Invalid signature length, expected: 64 bytes"),
        (Toy.public_key, [])).
Proof.
  destruct (length_checks_come_first generator_ed25519 [x00] None
              Toy.public_key [] [x00] []) as [Hk Hs].
  split.
  - apply Hk. discriminate.
  - apply Hs. discriminate.
Defined.

Lemma public_key_getters_witness :
  PublicKey.public_key Toy.public_key = Toy.key_bytes
  /\ decode curve_ed25519 Toy.key_bytes
     = Some (PublicKey.public_point Toy.public_key).
Proof.
  assert (Hinit : PublicKey.__init__ generator_ed25519 Toy.key_bytes None []
                  = (Return Toy.public_key, [EvDecode]))
    by (vm_compute; reflexivity).
  destruct (public_key_getters _ _ _ _ _ _ Hinit) as (Hb & _ & _ & Hd & _).
  split; [exact Hb | exact Hd].
Defined.

Lemma private_key_attributes_stable_witness :
  exists sk,
    reachable generator_ed25519 Toy.seed_25519 sk
    /\ PrivateKey.__public_key sk <> None
    /\ PrivateKey.private_key sk = Toy.seed_25519.
Proof.
  destruct toy_public_key_25519 as (sk & w & pk & sk' & w' & Hinit & Hpk).
  assert (Hr : reachable generator_ed25519 Toy.seed_25519 sk')
    by exact (reach_public_key _ _ _ _ _ _ _ (reach_init _ _ _ _ _ Hinit) Hpk).
  exists sk'. split; [exact Hr|]. split.
  - destruct (public_key_result _ _ _ _ _ _ _ (reach_init _ _ _ _ _ Hinit) Hpk)
      as (s & _ & _ & _ & _ & Hc & _). congruence.
  - exact (proj1 (private_key_attributes_stable _ _ _ Hr)).
Defined.

Lemma private_key_equality_witness :
  exists sk sk',
    reachable generator_ed25519 Toy.seed_25519 sk
    /\ reachable generator_ed25519 Toy.seed_25519 sk'
    /\ PrivateKey.__public_key sk = None
    /\ PrivateKey.__public_key sk' <> None
    /\ PrivateKey.__eq__ sk sk' = true.
Proof.
  destruct toy_public_key_25519 as (sk & w & pk & sk' & w' & Hinit & Hpk).
  assert (Hr : reachable generator_ed25519 Toy.seed_25519 sk)
    by exact (reach_init _ _ _ _ _ Hinit).
  assert (Hr' : reachable generator_ed25519 Toy.seed_25519 sk')
    by exact (reach_public_key _ _ _ _ _ _ _ Hr Hpk).
  exists sk, sk'. split; [exact Hr|]. split; [exact Hr'|]. split; [|split].
  - exact (proj2 (init_deterministic _ _ _ _ _ _ _ _ Hinit Hinit)).
  - destruct (public_key_result _ _ _ _ _ _ _ Hr Hpk)
      as (s & _ & _ & _ & _ & Hc & _). congruence.
  - apply (proj1 (private_key_equality _ _ _ _ _ Hr Hr')). reflexivity.
Defined.

Lemma private_key_construction_witness :
  (exists sk,
     PrivateKey.__init__ generator_ed25519 Toy.seed_25519 []
     = (Return sk, [EvHash])
     /\ PrivateKey.__s sk mod 8 = 0)
  /\ (exists sk,
     PrivateKey.__init__ generator_ed448 Toy.seed_448 []
     = (Return sk, [EvHash])
     /\ PrivateKey.__s sk mod 4 = 0).
Proof.
  split.
  - destruct (proj1 (private_key_construction Toy.seed_25519 [] toy_hash_laws)
                    eq_refl) as (sk & Hi & _ & Hm & _).
    exists sk. auto.
  - destruct (proj2 (private_key_construction Toy.seed_448 [] toy_hash_laws)
                    eq_refl) as (sk & Hi & _ & Hm & _).
    exists sk. auto.
Defined.

Lemma sign_engine_calls_witness :
  exists sk' pk,
    reachable generator_ed25519 Toy.seed_25519 sk'
    /\ PrivateKey.__public_key sk' = Some pk
    /\ PrivateKey.public_key (sk', []) = (Return pk, (sk', [])).
Proof.
  destruct toy_sign_25519 as (sk & w & sig & sk' & w' & Hr & Hsign).
  destruct (sign_engine_calls _ _ _ _ _ _ _ _ Hr Hsign) as (pk & Hc & Hnext & _).
  exists sk', pk. split; [|auto].
  exact (reach_sign _ _ _ _ _ _ _ _ Hr Hsign).
Defined.

Lemma signature_well_formed_witness :
  exists sk signature sk' w',
    reachable generator_ed25519 Toy.seed_25519 sk
    /\ PrivateKey.sign [x61] (sk, []) = (Return signature, (sk', w'))
    /\ len signature = 64.
Proof.
  destruct toy_init_25519 as (sk & w & Hinit).
  assert (Hr : reachable generator_ed25519 Toy.seed_25519 sk)
    by exact (reach_init _ _ _ _ _ Hinit).
  destruct (signature_well_formed generator_ed25519 Toy.seed_25519 [x61] sk []
              (or_introl eq_refl) (encode_length _ toy_laws_ed25519) Hr)
    as (sig & sk' & w' & Hsign & Hlen & _).
  exists sk, sig, sk', w'. auto.
Defined.

Lemma signature_of_the_other_curve_witness :
  exists sk w signature sk' w' pk,
    reachable generator_ed25519 Toy.seed_25519 sk
    /\ PrivateKey.sign [x61] (sk, w) = (Return signature, (sk', w'))
    /\ PublicKey.__init__ generator_ed448 (repeat x00 57) None []
       = (Return pk, [EvDecode])
    /\ PublicKey.verify [x61] signature (pk, [])
       = (Raise (ValueError "Invalid signature length, expected: 114 bytes"),
          (pk, [])).
Proof.
  destruct toy_sign_25519 as (sk & w & sig & sk' & w' & Hr & Hsign).
  exists sk, w, sig, sk', w',
    (@PublicKey.Build Toy.engine generator_ed448 curve_ed448 (repeat x00 57)
       57 (Toy.Elt 57 Ed448._r 0)).
  split; [exact Hr|]. split; [exact Hsign|].
  split; [vm_compute; reflexivity|].
  apply (signature_of_the_other_curve generator_ed25519 Toy.seed_25519
           [x61] [x61] sig sk sk' w w' []);
    [ left; split; reflexivity
    | exact (encode_length _ toy_laws_ed25519)
    | exact Hr
    | exact Hsign ].
Defined.

Lemma public_key_bytes_roundtrip_witness :
  exists sk w pk sk' w',
    PrivateKey.__init__ generator_ed25519 Toy.seed_25519 [] = (Return sk, w)
    /\ PrivateKey.public_key (sk, w) = (Return pk, (sk', w'))
    /\ PublicKey.__init__ generator_ed25519 (PublicKey.public_key pk) None []
       = (Return pk, [EvDecode]).
Proof.
  destruct toy_public_key_25519 as (sk & w & pk & sk' & w' & Hinit & Hpk).
  exists sk, w, pk, sk', w'. split; [exact Hinit|]. split; [exact Hpk|].
  exact (public_key_bytes_roundtrip generator_ed25519 Toy.seed_25519
           sk sk' w w' [] pk toy_laws_ed25519
           (reach_init _ _ _ _ _ Hinit) Hpk).
Defined.

Lemma sign_export_verify_accepts_witness :
  (exists w',
     sign_export_verify generator_ed25519 Toy.seed_25519 [] [] = (Return true, w'))
  /\ (exists w',
     sign_export_verify generator_ed448 Toy.seed_448 [x61; x62; x63] []
     = (Return true, w')).
Proof.
  split.
  - exact (proj1 (sign_export_verify_accepts Toy.seed_25519 [] []
                    toy_hash_laws toy_laws_ed25519 toy_laws_ed448) eq_refl).
  - exact (proj2 (sign_export_verify_accepts Toy.seed_448 [x61; x62; x63] []
                    toy_hash_laws toy_laws_ed25519 toy_laws_ed448) eq_refl).
Defined.

(** The export round trip, run. *)
Example sign_export_verify_ed25519_run :
  sign_export_verify generator_ed25519 Toy.seed_25519 [x61] []
  = (Return true,
     [EvHash; EvScalarMul; EvEncode; EvHash; EvScalarMul; EvEncode; EvHash;
      EvDecode;
      EvDecode; EvEncode; EvHash; EvScalarMul; EvScalarMul; EvPointAdd;
      EvPointEqual]).
Proof. vm_compute. reflexivity. Qed.

(** Pruning a one-byte key: ed25519 takes it, ed448 does not. *)
Example key_prune_one_byte_run :
  PrivateKey._key_prune curve_ed25519 [xff] = Return [x78]
  /\ PrivateKey._key_prune curve_ed448 [xff]
     = Raise (IndexError "bytearray index out of range").
Proof. split; vm_compute; reflexivity. Qed.
End MoreToyRuns.
